(** * ecaplugin: plugin chains of Ardour / JACK Rack sessions as ecasound
      command lines.

    A shallow embedding of [ecaplugin.py].  The Python run-time pieces the
    program relies on ([int], [float], [str], [%]-formatting, [str.join],
    list indexing, the tree navigation of the document library) are
    modelled first, in the modules [Py] and [Bs4]; the program's own
    classes follow, one module per class, and the theorems come last. *)

From Stdlib Require Import ZArith String Ascii List Sorted Lia Bool.
From Stdlib Require Import DecimalString DecimalZ DecimalPos DecimalFacts.
From Stdlib Require Import SpecFloat.
From stdpp Require Import base option list strings gmap.

Local Open Scope string_scope.
Local Open Scope Z_scope.

(** ** Exceptions and results *)

Module Py.

(** The exceptions that can leave the program.  [SystemExit] is what
    [sys.exit(msg)] raises; the others come from the run time. *)
Inductive exn : Type :=
  | SystemExit (msg : string)
  | ValueError
  | OverflowError
  | TypeError
  | KeyError (key : string)
  | AttributeError
  | IndexError.

Inductive result (A : Type) : Type :=
  | Ok (a : A)
  | Raise (e : exn).
Arguments Ok {A} a.
Arguments Raise {A} e.

#[global] Instance result_ret : MRet result := fun A a => Ok a.
#[global] Instance result_bind : MBind result := fun A B f m =>
  match m with
  | Ok a => f a
  | Raise e => Raise e
  end.
#[global] Instance result_fmap : FMap result := fun A B f m =>
  match m with
  | Ok a => Ok (f a)
  | Raise e => Raise e
  end.

Definition is_Ok {A} (r : result A) : Prop := exists a, r = Ok a.

Definition is_exit {A} (r : result A) : Prop := exists msg, r = Raise (SystemExit msg).

(** [None.attr] and [None[key]] *)
Definition attr_of {A} (o : option A) : result A :=
  match o with
  | Some a => Ok a
  | None => Raise AttributeError
  end.

Definition subscriptable {A} (o : option A) : result A :=
  match o with
  | Some a => Ok a
  | None => Raise TypeError
  end.

(** ** Strings

    A Python string is a sequence of code points; here it is the sequence
    of the bytes of its UTF-8 encoding.  The ASCII characters the program
    looks for ([+], [{], digits, signs) are single bytes that occur in no
    longer sequence, so that tests for them read the bytes; the length of
    a string counts its code points. *)

(** a byte that continues a UTF-8 sequence *)
Definition is_continuation (c : ascii) : bool :=
  let n := nat_of_ascii c in (128 <=? n)%nat && (n <? 192)%nat.

(** [len(s)] for a string [s]: its number of code points *)
Fixpoint len (s : string) : nat :=
  match s with
  | EmptyString => O
  | String c s' => ((if is_continuation c then 0 else 1) + len s')%nat
  end.

(** the line feed *)
Definition nl : string := String (ascii_of_nat 10) "".

(** [sep.join(l)] *)
Fixpoint join (sep : string) (l : list string) : string :=
  match l with
  | [] => ""
  | [s] => s
  | s :: l' => s +:+ sep +:+ join sep l'
  end.

(** [c * n] for a one-character string [c] *)
Fixpoint repeat_char (c : ascii) (n : nat) : string :=
  match n with
  | O => ""
  | S n' => String c (repeat_char c n')
  end.

(** [c in s] for a character [c] *)
Fixpoint contains_char (c : ascii) (s : string) : bool :=
  match s with
  | EmptyString => false
  | String a s' => if Ascii.eqb a c then true else contains_char c s'
  end.

(** [s.count(c)] for a character [c] *)
Fixpoint count_char (c : ascii) (s : string) : nat :=
  match s with
  | EmptyString => O
  | String a s' => (if Ascii.eqb a c then 1 else 0)%nat + count_char c s'
  end.

(** [s.startswith(p)] *)
Fixpoint startswith (p s : string) : bool :=
  match p, s with
  | EmptyString, _ => true
  | String a p', String b s' => Ascii.eqb a b && startswith p' s'
  | String _ _, EmptyString => false
  end.

(** ** Integers *)

(** [str(n)] and ['%d' % n] for an integer [n] *)
Definition str_int (n : Z) : string := NilZero.string_of_int (Z.to_int n).

(** an ASCII digit; [int] and [float] also read the other decimal digits
    and blanks of Unicode, which are not modelled: a string that holds
    them is refused here *)
Definition is_digit (c : ascii) : bool :=
  let n := nat_of_ascii c in (48 <=? n)%nat && (n <=? 57)%nat.

Definition digit_val (c : ascii) : Z := Z.of_nat (nat_of_ascii c) - 48.

(** the white space that [float] and [int] skip at both ends of a
    string: blank, tab, line feed, vertical tab, form feed and carriage
    return *)
Definition is_space (c : ascii) : bool :=
  let n := nat_of_ascii c in
  ((9 <=? n)%nat && (n <=? 13)%nat) || (n =? 32)%nat.

Fixpoint lstrip (s : list ascii) : list ascii :=
  match s with
  | c :: s' => if is_space c then lstrip s' else s
  | [] => []
  end.

Definition strip (s : list ascii) : list ascii :=
  rev (lstrip (rev (lstrip s))).

(** A run of digits in which single underscores may separate digits
    ([digit (["_"] digit)*]).  [digits_from acc cnt s] continues a run
    whose value so far is [acc] and which has [cnt] digits; it returns the
    value, the number of digits and the rest of the input. *)
Fixpoint digits_from (acc : Z) (cnt : nat) (s : list ascii)
  : Z * nat * list ascii :=
  match s with
  | c :: s' =>
      if is_digit c then digits_from (10 * acc + digit_val c) (S cnt) s'
      else if Ascii.eqb c "_" then
        match s' with
        | d :: s'' =>
            if is_digit d then digits_from (10 * acc + digit_val d) (S cnt) s''
            else (acc, cnt, s)
        | [] => (acc, cnt, s)
        end
      else (acc, cnt, s)
  | [] => (acc, cnt, s)
  end.

(** a digit run that must start with a digit (possibly empty) *)
Definition digits (s : list ascii) : Z * nat * list ascii :=
  match s with
  | c :: _ => if is_digit c then digits_from 0 0 s else (0, O, s)
  | [] => (0, O, s)
  end.

(** an optional sign; [true] is minus *)
Definition sign (s : list ascii) : bool * list ascii :=
  match s with
  | c :: s' =>
      if Ascii.eqb c "-" then (true, s')
      else if Ascii.eqb c "+" then (false, s')
      else (false, s)
  | [] => (false, s)
  end.

(** [int(s)] for a string [s], base 10 *)
Definition int_of_str (s : string) : result Z :=
  let '(neg, s1) := sign (strip (list_ascii_of_string s)) in
  match digits s1 with
  | (n, S _, []) => Ok (if neg then - n else n)
  | _ => Raise ValueError
  end.

(** [int(v)] where [v] may be [None] *)
Definition int_of (v : option string) : result Z :=
  match v with
  | Some s => int_of_str s
  | None => Raise TypeError
  end.

(** ** Lists *)

(** [l[i]], negative indices counting from the end *)
Definition getitem {A} (l : list A) (i : Z) : result A :=
  let n := Z.of_nat (length l) in
  let j := if i <? 0 then i + n else i in
  if (j <? 0) || (n <=? j) then Raise IndexError
  else match l !! Z.to_nat j with
       | Some a => Ok a
       | None => Raise IndexError
       end.

(** [range(n)] *)
Definition range (n : nat) : list Z := map Z.of_nat (seq 0 n).

(** ** Floating point

    A Python [float] is an IEEE 754 binary64 number; the standard
    library's [spec_float] with [prec = 53] and [emax = 1024] is that
    format, and its rounding is to nearest, ties to even. *)

Definition prec : Z := 53.
Definition emax : Z := 1024.

(** the float nearest to [M * 10 ^ E], for [0 <= M]; a zero takes the
    sign [neg] *)
Definition round_dec (neg : bool) (M E : Z) : spec_float :=
  if M =? 0 then S754_zero neg
  else if 0 <=? E then
    binary_normalize prec emax (cond_Zopp neg (M * 10 ^ E)) 0 neg
  else
    let '(q, e, l) := SFdiv_core_binary prec emax M 0 (10 ^ (- E)) 0 in
    binary_round_aux prec emax neg q e l.

Definition lower (c : ascii) : ascii :=
  let n := nat_of_ascii c in
  if (65 <=? n)%nat && (n <=? 90)%nat then ascii_of_nat (n + 32) else c.

Definition is_word (w : string) (s : list ascii) : bool :=
  String.eqb (string_of_list_ascii (map lower s)) w.

(** the exponent part of a float literal: nothing, or [e] or [E], an
    optional sign and a digit run *)
Definition exponent (s : list ascii) : option Z :=
  match s with
  | [] => Some 0
  | c :: s' =>
      if Ascii.eqb (lower c) "e" then
        let '(neg, s1) := sign s' in
        match digits s1 with
        | (n, S _, []) => Some (if neg then - n else n)
        | _ => None
        end
      else None
  end.

(** [float(s)] for a string [s] *)
Definition float_of_str (s : string) : result spec_float :=
  let '(neg, s1) := sign (strip (list_ascii_of_string s)) in
  if is_word "inf" s1 || is_word "infinity" s1 then Ok (S754_infinity neg)
  else if is_word "nan" s1 then Ok S754_nan
  else
    let '(ip, ni, s2) := digits s1 in
    let '(fp, nf, s3) :=
      match s2 with
      | c :: t => if Ascii.eqb c "." then digits t else (0, O, s2)
      | [] => (0, O, s2)
      end in
    match (ni + nf)%nat, exponent s3 with
    | S _, Some ex =>
        Ok (round_dec neg (ip * 10 ^ Z.of_nat nf + fp) (ex - Z.of_nat nf))
    | _, _ => Raise ValueError
    end.

(** [float(v)] where [v] may be [None] *)
Definition float_of (v : option string) : result spec_float :=
  match v with
  | Some s => float_of_str s
  | None => Raise TypeError
  end.

(** [int(x)] for a float [x]: truncation towards zero *)
Definition int_of_float (x : spec_float) : result Z :=
  match x with
  | S754_zero _ => Ok 0
  | S754_finite s m e =>
      Ok (cond_Zopp s (if 0 <=? e then Zpos m * 2 ^ e else Zpos m / 2 ^ (- e)))
  | S754_infinity _ => Raise OverflowError
  | S754_nan => Raise ValueError
  end.

(** [float(n)] for an integer [n] *)
Definition float_of_int (n : Z) : result spec_float :=
  match binary_normalize prec emax n 0 false with
  | S754_infinity _ => Raise OverflowError
  | x => Ok x
  end.

(** [x == y] on floats *)
Definition float_eq (x y : spec_float) : bool := SFeqb x y.

(** the same float, bit for bit *)
Definition same_float (x y : spec_float) : bool :=
  match x, y with
  | S754_zero a, S754_zero b => Bool.eqb a b
  | S754_infinity a, S754_infinity b => Bool.eqb a b
  | S754_nan, S754_nan => true
  | S754_finite a m e, S754_finite b n f => Bool.eqb a b && Pos.eqb m n && (e =? f)
  | _, _ => false
  end.

(** *** [str(x)] for a float [x]

    Python 3 prints the shortest digit string that [float] reads back as
    [x], and of those the one nearest to [x].  [x] is [num / den]. *)

Definition nb_digits10 (n : Z) : Z :=
  Z.of_nat (Decimal.nb_digits (Pos.to_uint (Z.to_pos n))).

(** the [k] with [10 ^ k <= num / den < 10 ^ (k + 1)] *)
Definition floor_log10 (num den : Z) : Z :=
  let k := nb_digits10 num - nb_digits10 den in
  let below := if 0 <=? k then num <? 10 ^ k * den else num * 10 ^ (- k) <? den in
  if below then k - 1 else k.

(** the two [n]-digit neighbours of [num / den] as multiples of [10 ^ q]:
    the quotient, the remainder and the divisor *)
Definition scaled (num den q : Z) : Z * Z * Z :=
  if 0 <=? q then (num / (den * 10 ^ q), num mod (den * 10 ^ q), den * 10 ^ q)
  else ((num * 10 ^ (- q)) / den, (num * 10 ^ (- q)) mod den, den).

Definition reads_back (x : spec_float) (D q : Z) : bool :=
  same_float (round_dec false D q) x.

(** the digits [D] and exponent [q] ([x] prints as [D * 10 ^ q]) with [n]
    significant digits, if one of the two neighbours reads back *)
Definition shortest_at (x : spec_float) (num den : Z) (n : Z) : option (Z * Z) :=
  let q := floor_log10 num den - n + 1 in
  let '(lo, r, t) := scaled num den q in
  let ok_lo := reads_back x lo q in
  let ok_hi := negb (r =? 0) && reads_back x (lo + 1) q in
  match ok_lo, ok_hi with
  | true, true =>
      match 2 * r ?= t with
      | Lt => Some (lo, q)
      | Gt => Some (lo + 1, q)
      | Eq => Some (if Z.even lo then lo else lo + 1, q)
      end
  | true, false => Some (lo, q)
  | false, true => Some (lo + 1, q)
  | false, false => None
  end.

Fixpoint shortest_from (x : spec_float) (num den : Z) (n : Z) (fuel : nat)
  : Z * Z :=
  match fuel with
  | O =>
      let q := floor_log10 num den - n + 1 in
      let '(lo, r, t) := scaled num den q in
      (if 2 * r <? t then lo else lo + 1, q)
  | S fuel' =>
      match shortest_at x num den n with
      | Some dq => dq
      | None => shortest_from x num den (n + 1) fuel'
      end
  end.

Fixpoint rstrip_zeros (s : list ascii) : list ascii :=
  match s with
  | [] => []
  | c :: s' =>
      match rstrip_zeros s' with
      | [] => if Ascii.eqb c "0" then [] else [c]
      | r => c :: r
      end
  end.

(** the digits [ds], read as [0.ds * 10 ^ decpt], in [repr] layout *)
Definition layout (ds : list ascii) (decpt : Z) : string :=
  let n := Z.of_nat (length ds) in
  if (decpt <=? -4) || (16 <? decpt) then
    let ex := decpt - 1 in
    let mant :=
      match ds with
      | [] => ""
      | [d] => String d ""
      | d :: rest => String d ("." +:+ string_of_list_ascii rest)
      end in
    let exs := str_int (Z.abs ex) in
    mant +:+ "e" +:+ (if ex <? 0 then "-" else "+")
         +:+ (if Z.abs ex <? 10 then "0" else "") +:+ exs
  else if decpt <=? 0 then
    "0." +:+ repeat_char "0" (Z.to_nat (- decpt)) +:+ string_of_list_ascii ds
  else if n <=? decpt then
    string_of_list_ascii ds +:+ repeat_char "0" (Z.to_nat (decpt - n)) +:+ ".0"
  else
    string_of_list_ascii (take (Z.to_nat decpt) ds) +:+ "." +:+
    string_of_list_ascii (drop (Z.to_nat decpt) ds).

Definition str_float (x : spec_float) : string :=
  match x with
  | S754_zero s => if s then "-0.0" else "0.0"
  | S754_infinity s => if s then "-inf" else "inf"
  | S754_nan => "nan"
  | S754_finite s m e =>
      let '(num, den) :=
        if 0 <=? e then (Zpos m * 2 ^ e, 1) else (Zpos m, 2 ^ (- e)) in
      let '(D, q) := shortest_from (S754_finite false m e) num den 1 17 in
      let ds := list_ascii_of_string (str_int D) in
      (if s then "-" else "") +:+
      layout (rstrip_zeros ds) (Z.of_nat (length ds) + q)
  end.

End Py.

Import Py.


(** ** The document tree

    The part of the document library the program uses: tags with a name,
    an attribute dictionary and contents, and text nodes. *)

Module Bs4.

#[warnings="-register-all"] Inductive node : Type :=
  | Tag (name : string) (attrs : gmap string string) (contents : list node)
  | NavigableString (text : string).

(** all nodes below [t], in document order *)
Fixpoint descendants (t : node) : list node :=
  match t with
  | Tag _ _ cs => flat_map (fun c => c :: descendants c) cs
  | NavigableString _ => []
  end.

Definition is_tag (nm : string) (n : node) : bool :=
  match n with
  | Tag nm' _ _ => String.eqb nm' nm
  | NavigableString _ => false
  end.

Definition attrs_of (n : node) : gmap string string :=
  match n with
  | Tag _ a _ => a
  | NavigableString _ => ∅
  end.

(** [t.find_all(nm)] *)
Definition find_all (nm : string) (t : node) : list node :=
  List.filter (is_tag nm) (descendants t).

(** [t.find(nm)], which is also [t.nm] *)
Definition find (nm : string) (t : node) : option node :=
  head (find_all nm t).

(** [t.find(nm, recursive=False)] *)
Definition find_child (nm : string) (t : node) : option node :=
  match t with
  | Tag _ _ cs => head (List.filter (is_tag nm) cs)
  | NavigableString _ => None
  end.

(** [t.find(nm, key=val)] *)
Definition find_with (nm key val : string) (t : node) : option node :=
  head (List.filter
          (fun n => is_tag nm n && bool_decide (attrs_of n !! key = Some val))
          (descendants t)).

(** [t.has_attr(key)] *)
Definition has_attr (key : string) (t : node) : bool :=
  bool_decide (is_Some (attrs_of t !! key)).

(** [t[key]] *)
Definition get (key : string) (t : node) : result string :=
  match attrs_of t !! key with
  | Some v => Ok v
  | None => Raise (KeyError key)
  end.

(** [t.string] *)
Fixpoint get_string (t : node) : option string :=
  match t with
  | Tag _ _ [c] =>
      match c with
      | NavigableString s => Some s
      | Tag _ _ _ => get_string c
      end
  | Tag _ _ _ => None
  | NavigableString s => Some s
  end.

End Bs4.

(** ** Plugins and tracks *)

(** [LadspaPlugin] and [LV2Plugin]: the two classes share their fields but
    for the identity, a number or a URI.  A value is what the document
    holds, a string, or [None] where the document library found none. *)
Inductive Plugin : Type :=
  | LadspaPlugin (unique_id : Z) (values : list (option string))
                 (enabled : bool) (name : option string)
  | LV2Plugin (uri : string) (values : list (option string))
              (enabled : bool) (name : option string).

Definition name (p : Plugin) : option string :=
  match p with
  | LadspaPlugin _ _ _ n | LV2Plugin _ _ _ n => n
  end.

Definition enabled (p : Plugin) : bool :=
  match p with
  | LadspaPlugin _ _ e _ | LV2Plugin _ _ e _ => e
  end.

Definition values (p : Plugin) : list (option string) :=
  match p with
  | LadspaPlugin _ v _ _ | LV2Plugin _ v _ _ => v
  end.

(** [plugin.format_cmdline(format_value)] *)
Definition format_cmdline (p : Plugin)
    (format_value : option string -> result string) : result string :=
  match p with
  | LadspaPlugin unique_id vs _ _ =>
      vals ← mapM format_value vs;
      mret ("-eli:" +:+ str_int unique_id +:+ "," +:+ join "," vals)
  | LV2Plugin uri vs _ _ =>
      vals ← mapM format_value vs;
      mret ("-elv2:" +:+ uri +:+ "," +:+ join "," vals)
  end.

Record Track : Type := mkTrack {
  plugins : list Plugin;
  nchannels : Z;
  samplerate : Z;
  track_name : option string
}.

(** ** Ardour 2.x sessions *)

Module Ardour2Session.
Import Bs4.

(** [[p['value'] for p in ports]] *)
Definition port_values (ports : list node) : result (list (option string)) :=
  mapM (fun p => Some <$> get "value" p) ports.

Definition parse_ladspa (insert : node) : result Plugin :=
  redirect ← subscriptable (find "Redirect" insert);
  active ← get "active" redirect;
  let enabled := String.eqb active "yes" in
  io ← subscriptable (find "IO" redirect);
  name ← get "name" io;
  uid ← get "unique-id" insert;
  unique_id ← int_of_str uid;
  ladspa ← attr_of (find "ladspa" insert);
  values ← port_values (find_all "port" ladspa);
  mret (LadspaPlugin unique_id values enabled (Some name)).

Definition parse_lv2 (insert : node) : result Plugin :=
  redirect ← subscriptable (find "Redirect" insert);
  active ← get "active" redirect;
  let enabled := String.eqb active "yes" in
  io ← subscriptable (find "IO" redirect);
  name ← get "name" io;
  uri ← get "unique-id" insert;
  lv2 ← attr_of (find "lv2" insert);
  values ← port_values (find_all "port" lv2);
  mret (LV2Plugin uri values enabled (Some name)).

(** the loop over the inserts of a route, with its two lists *)
Fixpoint scan_inserts (inserts : list node) (pre_fader post_fader : list Plugin)
  : result (list Plugin * list Plugin) :=
  match inserts with
  | [] => Ok (pre_fader, post_fader)
  | insert :: rest =>
      type ← get "type" insert;
      redirect ← subscriptable (find "Redirect" insert);
      placement ← get "placement" redirect;
      let is_post_fader := String.eqb placement "PostFader" in
      if String.eqb type "ladspa" then
        plugin ← parse_ladspa insert;
        if is_post_fader then scan_inserts rest pre_fader (post_fader ++ [plugin])
        else scan_inserts rest (pre_fader ++ [plugin]) post_fader
      else if String.eqb type "lv2" then
        plugin ← parse_lv2 insert;
        if is_post_fader then scan_inserts rest pre_fader (post_fader ++ [plugin])
        else scan_inserts rest (pre_fader ++ [plugin]) post_fader
      else scan_inserts rest pre_fader post_fader
  end.

Definition parse_route (soup route : node) : result Track :=
  io ← attr_of (find "IO" route);
  nchannels ←
    (if has_attr "input-connection" io then
       conn ← get "input-connection" io;
       mret (if contains_char "+" conn then 2 else 1)
     else
       inputs ← get "inputs" io;
       mret (Z.of_nat (count_char "{" inputs)));
  session ← subscriptable (find "Session" soup);
  rate ← get "sample-rate" session;
  samplerate ← int_of_str rate;
  name ← get "name" io;
  '(pre_fader, post_fader) ← scan_inserts (find_all "Insert" route) [] [];
  mret (mkTrack (pre_fader ++ post_fader) nchannels samplerate (Some name)).

(** [Ardour2Session(data).tracks] *)
Definition tracks (soup : node) : result (list Track) :=
  session ← attr_of (find "Session" soup);
  routes ← attr_of (find "Routes" session);
  mapM (parse_route soup) (find_all "Route" routes).

End Ardour2Session.

(** ** Ardour 3.x sessions *)

Module Ardour3Session.
Import Bs4.

Definition port_values (ports : list node) : result (list (option string)) :=
  mapM (fun p => Some <$> get "value" p) ports.

Definition parse_ladspa (processor : node) : result Plugin :=
  active ← get "active" processor;
  let enabled := String.eqb active "yes" in
  name ← get "name" processor;
  uid ← get "unique-id" processor;
  unique_id ← int_of_str uid;
  ladspa ← attr_of (find "ladspa" processor);
  values ← port_values (find_all "Port" ladspa);
  mret (LadspaPlugin unique_id values enabled (Some name)).

Definition parse_lv2 (processor : node) : result Plugin :=
  active ← get "active" processor;
  let enabled := String.eqb active "yes" in
  name ← get "name" processor;
  uri ← get "unique-id" processor;
  lv2 ← attr_of (find "lv2" processor);
  values ← port_values (find_all "Port" lv2);
  mret (LV2Plugin uri values enabled (Some name)).

Fixpoint scan_processors (processors : list node) (plugins : list Plugin)
  : result (list Plugin) :=
  match processors with
  | [] => Ok plugins
  | processor :: rest =>
      type ← get "type" processor;
      if String.eqb type "ladspa" then
        plugin ← parse_ladspa processor;
        scan_processors rest (plugins ++ [plugin])
      else if String.eqb type "lv2" then
        plugin ← parse_lv2 processor;
        scan_processors rest (plugins ++ [plugin])
      else scan_processors rest plugins
  end.

Definition parse_route (soup route : node) : result Track :=
  input ← attr_of (find_with "IO" "direction" "Input" route);
  let nchannels := Z.of_nat (length (find_all "Port" input)) in
  session ← subscriptable (find "Session" soup);
  rate ← get "sample-rate" session;
  samplerate ← int_of_str rate;
  io ← subscriptable (find "IO" route);
  name ← get "name" io;
  plugins ← scan_processors (find_all "Processor" route) [];
  mret (mkTrack plugins nchannels samplerate (Some name)).

Definition tracks (soup : node) : result (list Track) :=
  session ← attr_of (find "Session" soup);
  routes ← attr_of (find "Routes" session);
  mapM (parse_route soup) (find_all "Route" routes).

End Ardour3Session.

(** ** JACK Rack files *)

Module JackRack.
Import Bs4.

Definition parse_ladspa (plugin : node) : result Plugin :=
  en ← attr_of (find "enabled" plugin);
  let enabled := bool_decide (get_string en = Some "true") in
  id ← attr_of (find "id" plugin);
  unique_id ← int_of (get_string id);
  values ← mapM (fun cr => get_string <$> attr_of (find "value" cr))
                (find_all "controlrow" plugin);
  mret (LadspaPlugin unique_id values enabled None).

(** [JackRack(data).track] *)
Definition track (soup : node) : result Track :=
  rack ← attr_of (find "jackrack" soup);
  channels ← attr_of (find "channels" rack);
  nchannels ← int_of (get_string channels);
  rate ← attr_of (find "samplerate" rack);
  samplerate ← int_of (get_string rate);
  plugins ← mapM parse_ladspa (find_all "plugin" rack);
  mret (mkTrack plugins nchannels samplerate None).

End JackRack.

(** ** The formatter *)

Module EcasoundOutput.

(** the command-line arguments the formatter reads from [self] *)
Record t : Type := mk {
  chain_setup : bool;
  client_name : string;
  single_line : bool;
  no_description : bool;
  include_indices : list Z;
  exclude_indices : list Z;
  include_disabled : bool
}.

Definition format_value (self : t) (value : option string) : result string :=
  floating ← float_of value;
  again ← float_of value;
  integer ← int_of_float again;
  back ← float_of_int integer;
  if float_eq back floating then mret (str_int integer)
  else mret (str_float floating).

Definition format_plugin (self : t) (index : Z) (plugin : Plugin) : result string :=
  let description :=
    if negb (no_description self) then
      "# " +:+ str_int index +:+ ": " +:+
      (match name plugin with
       | Some n => if String.eqb n "" then "" else n
       | None => ""
       end) +:+ nl
    else "" in
  let comment := if negb (enabled plugin) then "# " else "" in
  cmdline ← format_cmdline plugin (format_value self);
  mret (description +:+ comment +:+ cmdline).

(** the check of the plugin indices, a loop that leaves through
    [sys.exit] at the first index out of range *)
Fixpoint check_indices (indices : list Z) (len : Z) : result unit :=
  match indices with
  | [] => Ok tt
  | i :: rest =>
      if (i <? 0) || (len <=? i) then
        Raise (SystemExit ("error: plugin index " +:+ str_int i +:+ " is out of range"))
      else check_indices rest len
  end.

(** the loop that makes the list of plugins *)
Fixpoint collect (self : t) (track : Track) (indices : list Z)
    (acc : list (Z * Plugin)) : result (list (Z * Plugin)) :=
  match indices with
  | [] => Ok acc
  | i :: rest =>
      p ← getitem (plugins track) i;
      if enabled p || include_disabled self
      then collect self track rest (acc ++ [(i, p)])
      else collect self track rest acc
  end.

Definition preamble (track : Track) (self : t) : string :=
  "-f:f32," +:+ str_int (nchannels track) +:+ "," +:+ str_int (samplerate track) +:+
  " -G:jack," +:+ client_name self +:+ ",notransport -i:jack -o:jack".

Definition format_track (self : t) (track : Track) : result string :=
  _ ← check_indices (include_indices self ++ exclude_indices self)
                    (Z.of_nat (length (plugins track)));
  let indices :=
    match include_indices self with
    | _ :: _ => include_indices self
    | [] => List.filter (fun i => negb (bool_decide (i ∈ exclude_indices self)))
                        (range (length (plugins track)))
    end in
  selected ← collect self track indices [];
  let separator := if single_line self then " " else nl in
  rendered ← mapM (fun ip => format_plugin self ip.1 ip.2) selected;
  let string := join separator rendered in
  if chain_setup self then
    mret (preamble track self +:+ nl +:+ nl +:+ string)
  else mret string.

(** the item of the generator in [format_session]: the formatting of
    ['%s:\n%s\n%s'] with the name, the dashes and the formatted track *)
Definition format_block (self : t) (track : Track) : result string :=
  let name := from_option id "None" (track_name track) in
  width ← match track_name track with
           | Some n => Ok (len n)
           | None => Raise TypeError
           end;
  body ← format_track self track;
  mret (name +:+ ":" +:+ nl +:+ repeat_char "-" (width + 1) +:+ nl +:+ body).

Definition format_session (self : t) (tracks : list Track) : result string :=
  blocks ← mapM (format_block self) tracks;
  mret (join (nl +:+ nl) blocks).

End EcasoundOutput.

(** ** The main program

    What runs under [__main__] once the arguments are parsed and the file
    is read: [args] is the namespace of the argument parser, [soup] the
    parsed document.  The result is the text that is printed. *)

Module Main.
Import Bs4.

(** [next(t for t in tracks if t.name == name)], [None] where the
    generator is exhausted *)
Definition first_named (nm : string) (tracks : list Track) : option Track :=
  List.find (fun t => bool_decide (track_name t = Some nm)) tracks.

(** The namespace: [-c] may be repeated and may come without a client
    name, so that [chain_setup_params] is [None], or a list whose items
    are a name or [None]. *)
Record Args : Type := mkArgs {
  filename : string;
  chain_setup_params : option (list (option string));
  single_line : bool;
  no_description : bool;
  track_name : option string;
  include_indices : list Z;
  exclude_indices : list Z;
  include_disabled : bool
}.

(** [bool(l)] for a list, and for a value that is a list or [None] *)
Definition nonempty {A} (l : list A) : bool :=
  match l with
  | [] => false
  | _ :: _ => true
  end.

(** [bool(s)] for a value that is a string or [None] *)
Definition truthy (s : option string) : bool :=
  match s with
  | Some (String _ _) => true
  | _ => false
  end.

(** [args.chain_setup] *)
Definition chain_setup (args : Args) : bool :=
  match chain_setup_params args with
  | Some l => nonempty l
  | None => false
  end.

(** [args.client_name] *)
Definition client_name (args : Args) : string :=
  match chain_setup_params args with
  | Some (Some nm :: _) => nm
  | _ => "ecasound"
  end.

(** [EcasoundOutput(args)], after the arguments have been adjusted *)
Definition output (args : Args) : EcasoundOutput.t :=
  EcasoundOutput.mk
    (chain_setup args) (client_name args) (single_line args)
    (if single_line args then true else no_description args)
    (include_indices args) (exclude_indices args)
    (if single_line args then false else include_disabled args).

Inductive input_format : Type := ardour | jackrack.

(** the input file format and whether a single track is exported *)
Definition sniff (args : Args) (soup : node) : result (input_format * bool) :=
  match find_child "Session" soup with
  | Some _ => Ok (ardour, truthy (track_name args))
  | None =>
      match find_child "jackrack" soup with
      | Some _ => Ok (jackrack, true)
      | None => Raise (SystemExit "error: input file format not recognized")
      end
  end.

(** the three checks of the arguments against the kind of export *)
Definition check_args (args : Args) (single_track : bool) : result unit :=
  if chain_setup args && negb single_track then
    Raise (SystemExit
      "error: ecasound chain setup can only be generated for a single track")
  else if nonempty (include_indices args) && nonempty (exclude_indices args) then
    Raise (SystemExit
      "error: can't specify plugin inclusion and exclusion at the same time")
  else if (nonempty (include_indices args) || nonempty (exclude_indices args))
          && negb single_track then
    Raise (SystemExit
      "error: can't specify plugin indices when exporting whole session")
  else Ok tt.

(** the tracks of an Ardour session, by the parser its version selects *)
Definition session_tracks (soup : node) : result (list Track) :=
  session ← subscriptable (find "Session" soup);
  version ← get "version" session;
  if startswith "2" version then Ardour2Session.tracks soup
  else Ardour3Session.tracks soup.

Definition run (args : Args) (soup : node) : result string :=
  '(format, single_track) ← sniff args soup;
  _ ← check_args args single_track;
  match format with
  | ardour =>
      tracks ← session_tracks soup;
      match track_name args with
      | Some (String c nm) =>
          match first_named (String c nm) tracks with
          | Some t => EcasoundOutput.format_track (output args) t
          | None =>
              Raise (SystemExit ("error: no track named '" +:+ String c nm +:+ "'"))
          end
      | _ => EcasoundOutput.format_session (output args) tracks
      end
  | jackrack =>
      track ← JackRack.track soup;
      EcasoundOutput.format_track (output args) track
  end.

End Main.

(** * Reference definitions

    What the statements below are phrased with: the inputs of the worked
    examples, and the descriptions the code is compared with. *)

Module Examples.

(** plugin A: enabled, numeric id 1, values 1.0 and 0.5 *)
Definition A : Plugin := LadspaPlugin 1 [Some "1.0"; Some "0.5"] true (Some "A").

(** plugin B: disabled, numeric id 2, value 3 *)
Definition B : Plugin := LadspaPlugin 2 [Some "3"] false (Some "B").

Definition elem (nm : string) (attrs : list (string * string)) (cs : list Bs4.node)
  : Bs4.node := Bs4.Tag nm (list_to_map attrs) cs.

Definition leaf (nm text : string) : Bs4.node :=
  Bs4.Tag nm ∅ [Bs4.NavigableString text].

(** a JACK Rack file: two channels, 44100 Hz, one enabled plugin with
    id 3 and the control values 0.2 and 0.8 *)
Definition rack : Bs4.node :=
  elem "[document]" []
    [elem "jackrack" []
       [leaf "channels" "2"; leaf "samplerate" "44100";
        elem "plugin" []
          [leaf "id" "3"; leaf "enabled" "true";
           elem "controlrow" [] [leaf "value" "0.2"];
           elem "controlrow" [] [leaf "value" "0.8"]]]].

(** an insert of an Ardour 2 route with one port *)
Definition insert (type uid active placement nm value : string) : Bs4.node :=
  elem "Insert" [("type", type); ("unique-id", uid)]
    [elem "Redirect" [("active", active); ("placement", placement)]
       [elem "IO" [("name", nm)] []];
     elem type [] [elem "port" [("number", "0"); ("value", value)] []]].

(** an Ardour 2 route with two inputs whose inserts mix post-fader and
    pre-fader units with a port insert *)
Definition route : Bs4.node :=
  elem "Route" []
    [elem "IO" [("name", "Audio 1"); ("inputs", "{in 1}{in 2}")] [];
     insert "ladspa" "10" "yes" "PostFader" "Limiter" "0.9";
     insert "port" "0" "yes" "PreFader" "Send" "0";
     insert "lv2" "urn:eq" "no" "PreFader" "EQ" "2";
     insert "ladspa" "11" "yes" "PreFader" "Gate" "1e-3"].

(** the same route on a stereo bus connection *)
Definition bus : Bs4.node :=
  elem "Route" []
    [elem "IO" [("name", "Bus"); ("input-connection", "in 1+2")] []].

Definition session : Bs4.node :=
  elem "[document]" []
    [elem "Session" [("version", "2.8.16"); ("sample-rate", "48000")]
       [elem "Routes" [] [route; bus]]].

(** the tracks of [session] *)
Definition session_tracks : list Track :=
  [mkTrack [LV2Plugin "urn:eq" [Some "2"] false (Some "EQ");
            LadspaPlugin 11 [Some "1e-3"] true (Some "Gate");
            LadspaPlugin 10 [Some "0.9"] true (Some "Limiter")]
           2 48000 (Some "Audio 1");
   mkTrack [] 2 48000 (Some "Bus")].

(** a processor of an Ardour 3 route with one port *)
Definition processor (type uid active nm value : string) : Bs4.node :=
  elem "Processor"
    [("name", nm); ("active", active); ("type", type); ("unique-id", uid)]
    [elem type [] [elem "Port" [("number", "0"); ("value", value)] []]].

(** an Ardour 3 route with two input ports and one output port *)
Definition route3 : Bs4.node :=
  elem "Route" [("name", "Gtr")]
    [elem "IO" [("name", "Gtr"); ("direction", "Input")]
       [elem "Port" [("name", "Gtr/in 1")] []; elem "Port" [("name", "Gtr/in 2")] []];
     elem "IO" [("name", "Gtr"); ("direction", "Output")]
       [elem "Port" [("name", "Gtr/out 1")] []];
     processor "ladspa" "1913" "yes" "Comp" "0.25";
     elem "Processor" [("name", "Amp"); ("active", "yes"); ("type", "amp")] [];
     processor "lv2" "urn:verb" "no" "Verb" "3.0"].

Definition session3 : Bs4.node :=
  elem "[document]" []
    [elem "Session" [("version", "3001"); ("sample-rate", "44100")]
       [elem "Routes" [] [route3]]].

(** a plugin of a JACK Rack file whose second control row has an empty
    [value] element *)
Definition hollow : Bs4.node :=
  elem "plugin" []
    [leaf "id" "4"; leaf "enabled" "true";
     elem "controlrow" [] [leaf "value" "0.5"];
     elem "controlrow" [] [elem "value" [] []]].

End Examples.

Module Spec.

(** an index of a list of [len] items *)
Definition in_range (len : Z) (i : Z) : Prop := 0 <= i < len.

(** a result that is not a fatal exit *)
Definition no_exit {A} (r : result A) : Prop :=
  forall msg, r <> Raise (SystemExit msg).

(** Step 2 of the formatter, as a property of an index: with an
    inclusion list the listed indices, otherwise the indices of the track
    that the exclusion list does not hold. *)
Definition selects (self : EcasoundOutput.t) (track : Track) (i : Z) : Prop :=
  match EcasoundOutput.include_indices self with
  | [] => in_range (Z.of_nat (length (plugins track))) i /\
          i ∉ EcasoundOutput.exclude_indices self
  | _ :: _ => i ∈ EcasoundOutput.include_indices self
  end.

(** Step 3: of the plugins at [indices], in that order, those that are
    enabled, or all of them when disabled plugins are included. *)
Definition kept (self : EcasoundOutput.t) (track : Track) (indices : list Z)
  : list (Z * Plugin) :=
  omap (fun i =>
          match plugins track !! Z.to_nat i with
          | Some p =>
              if enabled p || EcasoundOutput.include_disabled self
              then Some (i, p) else None
          | None => None
          end) indices.

(** Steps 4 and 5: the renderings of the given plugins joined by a space
    or a line feed, after the preamble and an empty line in chain-setup
    mode. *)
Definition render (self : EcasoundOutput.t) (track : Track)
    (sel : list (Z * Plugin)) : result string :=
  lines ← mapM (fun ip => EcasoundOutput.format_plugin self ip.1 ip.2) sel;
  let body := join (if EcasoundOutput.single_line self then " " else nl) lines in
  mret (if EcasoundOutput.chain_setup self
        then EcasoundOutput.preamble track self +:+ nl +:+ nl +:+ body
        else body).

(** the lines of a text *)
Fixpoint lines_from (cur : string) (s : string) : list string :=
  match s with
  | EmptyString => [cur]
  | String c s' =>
      if Ascii.eqb c (ascii_of_nat 10) then cur :: lines_from "" s'
      else lines_from (cur +:+ String c "") s'
  end.

Definition lines (s : string) : list string := lines_from "" s.

(** The inserts of an Ardour 2 route: an effect unit is an insert of type
    [ladspa] or [lv2]; it is post-fader when the placement of its redirect
    is [PostFader], and pre-fader otherwise. *)
Definition is_unit (insert : Bs4.node) : bool :=
  bool_decide (Bs4.attrs_of insert !! "type" = Some "ladspa" \/
               Bs4.attrs_of insert !! "type" = Some "lv2").

Definition post_fader (insert : Bs4.node) : bool :=
  match Bs4.find "Redirect" insert with
  | Some redirect =>
      bool_decide (Bs4.attrs_of redirect !! "placement" = Some "PostFader")
  | None => false
  end.

Definition unit_of (insert : Bs4.node) : result Plugin :=
  if bool_decide (Bs4.attrs_of insert !! "type" = Some "ladspa")
  then Ardour2Session.parse_ladspa insert
  else Ardour2Session.parse_lv2 insert.

(** an insert whose type and placement can be read *)
Definition readable (insert : Bs4.node) : Prop :=
  is_Some (Bs4.attrs_of insert !! "type") /\
  exists redirect, Bs4.find "Redirect" insert = Some redirect /\
                   is_Some (Bs4.attrs_of redirect !! "placement").

(** the exceptions that the reading of a value as a number raises *)
Definition value_error (e : exn) : Prop :=
  e = ValueError \/ e = TypeError \/ e = OverflowError.

(** a processor of an Ardour 3 route, parsed by the parser of its type *)
Definition unit3_of (processor : Bs4.node) : result Plugin :=
  if bool_decide (Bs4.attrs_of processor !! "type" = Some "ladspa")
  then Ardour3Session.parse_ladspa processor
  else Ardour3Session.parse_lv2 processor.

(** the characters of a decimal numeral *)
Definition chars (d : Decimal.uint) : list ascii :=
  list_ascii_of_string (NilEmpty.string_of_uint d).

(** a track whose plugin values are all strings *)
Definition string_values (t : Track) : Prop :=
  Forall (fun p => Forall is_Some (values p)) (plugins t).

(** the [value] attributes of port elements, as plugin values *)
Definition values_of (ports : list Bs4.node) : list (option string) :=
  map (fun p => Bs4.attrs_of p !! "value") ports.

End Spec.

(** * Properties *)

Import Bs4 EcasoundOutput Spec.

(** ** Strings *)

Lemma append_assoc (a b c : string) : (a +:+ b) +:+ c = a +:+ (b +:+ c).
Proof.
  induction a as [|x a IH]; [reflexivity|]. exact (f_equal (String x) IH).
Qed.

Lemma append_nil_r (a : string) : a +:+ "" = a.
Proof.
  induction a as [|x a IH]; [reflexivity|]. exact (f_equal (String x) IH).
Qed.

Lemma length_append (a b : string) :
  String.length (a +:+ b) = (String.length a + String.length b)%nat.
Proof.
  induction a as [|x a IH]; [reflexivity|]. exact (f_equal S IH).
Qed.

Lemma len_append (a b : string) : len (a +:+ b) = (len a + len b)%nat.
Proof.
  induction a as [|x a IH]; [reflexivity|].
  change (len (String x a +:+ b))
    with ((if is_continuation x then 0 else 1) + len (a +:+ b))%nat.
  rewrite IH. cbn [len]. lia.
Qed.

Lemma len_repeat_dash n : len (repeat_char "-" n) = n.
Proof. induction n as [|n IH]; [reflexivity|]. cbn [repeat_char len]. rewrite IH. reflexivity. Qed.

Lemma length_repeat_char c n : String.length (repeat_char c n) = n.
Proof. induction n as [|n IH]; simpl; [reflexivity | rewrite IH; reflexivity]. Qed.

(** ** The result monad *)

Lemma bind_Ok {A B} (m : result A) (g : A -> result B) (b : B) :
  m ≫= g = Ok b <-> exists a, m = Ok a /\ g a = Ok b.
Proof.
  destruct m as [a|e]; simpl; split.
  - intros H; exists a; auto.
  - intros (a' & [= <-] & H); exact H.
  - discriminate.
  - intros (a' & H & _); discriminate.
Qed.

Lemma bind_Raise {A B} (m : result A) (g : A -> result B) (e : exn) :
  m ≫= g = Raise e <-> m = Raise e \/ exists a, m = Ok a /\ g a = Raise e.
Proof.
  destruct m as [a|e']; simpl; split.
  - intros H; right; exists a; auto.
  - intros [H | (a' & [= <-] & H)]; [discriminate | exact H].
  - intros [= <-]; left; reflexivity.
  - intros [[= <-] | (a' & H & _)]; [reflexivity | discriminate].
Qed.

Lemma fmap_Ok {A B} (g : A -> B) (m : result A) (b : B) :
  g <$> m = Ok b <-> exists a, m = Ok a /\ b = g a.
Proof.
  destruct m as [a|e]; simpl; split.
  - intros [= <-]; exists a; auto.
  - intros (a' & [= <-] & ->); reflexivity.
  - discriminate.
  - intros (a' & H & _); discriminate.
Qed.

Section Results.
Context {A B : Type}.
Implicit Types (f : A -> result B) (l : list A) (k : list B).

Lemma mapM_cons f (x : A) l :
  mapM f (x :: l) = y ← f x; k ← mapM f l; mret (y :: k).
Proof. reflexivity. Qed.

Lemma mapM_Ok f l k :
  mapM f l = Ok k <-> Forall2 (fun x y => f x = Ok y) l k.
Proof.
  revert k; induction l as [|x l IH]; intros k.
  - split.
    + intros [= <-]; constructor.
    + intros H; inversion H; reflexivity.
  - rewrite mapM_cons; split.
    + intros H. apply bind_Ok in H as (y & Hy & H).
      destruct (mapM f l) as [k'|] eqn:Hk; [|discriminate].
      injection H as <-. constructor; [exact Hy | apply IH; reflexivity].
    + intros H; inversion H as [|? y ? k' Hy Hk]; subst.
      rewrite Hy; simpl. apply IH in Hk. rewrite Hk. reflexivity.
Qed.

Lemma mapM_Raise f l e :
  mapM f l = Raise e -> exists x, x ∈ l /\ f x = Raise e.
Proof.
  induction l as [|x l IH]; [discriminate|].
  rewrite mapM_cons. intros H.
  destruct (f x) as [y|e'] eqn:Hx; simpl in H.
  - destruct (mapM f l) as [k|e'] eqn:Hk; [discriminate|].
    injection H as ->. destruct IH as (x' & Hin & Hx'); [reflexivity|].
    exists x'; split; [right; exact Hin | exact Hx'].
  - injection H as ->. exists x; split; [left | exact Hx].
Qed.
End Results.

(** ** Which exceptions the formatter raises *)

Lemma no_exit_bind {A B} (m : result A) (g : A -> result B) :
  no_exit m -> (forall a, m = Ok a -> no_exit (g a)) -> no_exit (m ≫= g).
Proof.
  intros Hm Hg msg H. apply bind_Raise in H as [H | (a & Ha & H)].
  - exact (Hm msg H).
  - exact (Hg a Ha msg H).
Qed.

Lemma no_exit_Ok {A} (a : A) : no_exit (Ok a).
Proof. intros msg; discriminate. Qed.

Lemma no_exit_mapM {A B} (f : A -> result B) (l : list A) :
  (forall x, no_exit (f x)) -> no_exit (mapM f l).
Proof.
  intros Hf msg H. apply mapM_Raise in H as (x & _ & H). exact (Hf x msg H).
Qed.

Lemma float_of_no_exit v : no_exit (float_of v).
Proof.
  intros msg. destruct v as [s|]; [|discriminate]. simpl. unfold float_of_str.
  repeat (match goal with
          | |- context [let '(_, _) := ?x in _] => destruct x
          | |- context [if ?b then _ else _] => destruct b
          | |- context [match ?x with _ => _ end] => destruct x
          end; try discriminate).
Qed.

Lemma format_value_no_exit self v : no_exit (format_value self v).
Proof.
  unfold format_value.
  apply no_exit_bind; [apply float_of_no_exit | intros x _].
  apply no_exit_bind; [apply float_of_no_exit | intros y _].
  apply no_exit_bind; [destruct y; intros msg; discriminate | intros n _].
  apply no_exit_bind.
  - unfold float_of_int. destruct (binary_normalize _ _ _ _ _); intros msg; discriminate.
  - intros z _. destruct (float_eq z x); apply no_exit_Ok.
Qed.

Lemma format_plugin_no_exit self i p : no_exit (format_plugin self i p).
Proof.
  unfold format_plugin. apply no_exit_bind; [|intros; apply no_exit_Ok].
  destruct p; simpl;
    (apply no_exit_bind;
     [apply no_exit_mapM, format_value_no_exit | intros; apply no_exit_Ok]).
Qed.

Lemma getitem_no_exit {A} (l : list A) i : no_exit (getitem l i).
Proof.
  intros msg. unfold getitem.
  destruct (_ || _); [discriminate|]. destruct (l !! _); discriminate.
Qed.

Lemma collect_no_exit self track indices acc :
  no_exit (collect self track indices acc).
Proof.
  revert acc; induction indices as [|i rest IH]; intros acc; simpl.
  - apply no_exit_Ok.
  - apply no_exit_bind; [apply getitem_no_exit | intros p _].
    destruct (_ || _); apply IH.
Qed.

(** the index check passes exactly when every index is in range, and
    otherwise leaves through [sys.exit] *)
Lemma check_indices_Ok indices len :
  check_indices indices len = Ok tt <-> Forall (in_range len) indices.
Proof.
  induction indices as [|i rest IH]; simpl.
  - split; [constructor | reflexivity].
  - destruct (i <? 0) eqn:Hlo; simpl.
    + split; [discriminate|]. intros H; inversion H; subst. unfold in_range in *. lia.
    + destruct (len <=? i) eqn:Hhi.
      * split; [discriminate|]. intros H; inversion H; subst. unfold in_range in *. lia.
      * rewrite IH. split.
        -- intros H; constructor; [unfold in_range; lia | exact H].
        -- intros H; inversion H; assumption.
Qed.

Lemma check_indices_cases indices len :
  check_indices indices len = Ok tt \/ is_exit (check_indices indices len).
Proof.
  induction indices as [|i rest IH]; simpl; [left; reflexivity|].
  destruct (_ || _); [right; eexists; reflexivity | exact IH].
Qed.

(** ** The fatal index error *)

(** C4.  [format_track] ends the run through [sys.exit] if and only if
    some index of the inclusion or the exclusion list lies outside
    [0, plugin_count): when every listed index is in range the fatal
    branch is not taken (whatever else the rendering raises is not an
    exit), and when one is not, the run ends there. *)
Theorem format_track_exit_iff (self : EcasoundOutput.t) (track : Track) :
  let len := Z.of_nat (length (plugins track)) in
  let listed := (include_indices self ++ exclude_indices self)%list in
  (is_exit (format_track self track) <->
   Exists (fun i => i < 0 \/ len <= i) listed) /\
  (Forall (in_range len) listed -> ~ is_exit (format_track self track)).
Proof.
  intros len all.
  assert (Hiff : is_exit (format_track self track) <->
                 Exists (fun i => i < 0 \/ len <= i) all); [|split; [exact Hiff|]].
  2:{ intros Hall Hex. apply Hiff, Exists_exists in Hex as (i & Hin & Hi).
      rewrite Forall_forall in Hall. specialize (Hall i Hin).
      unfold in_range in Hall. lia. }
  unfold format_track. fold len. fold all.
  destruct (check_indices_cases all len) as [Hok | Hex].
  - rewrite Hok; simpl. pose proof (proj1 (check_indices_Ok all len) Hok) as Hall.
    split.
    + intros [msg H]. exfalso. revert msg H.
      apply no_exit_bind; [apply collect_no_exit | intros sel _].
      apply no_exit_bind;
        [apply no_exit_mapM; intros; apply format_plugin_no_exit | intros r _].
      destruct (chain_setup self); apply no_exit_Ok.
    + intros Hbad. exfalso. apply Exists_exists in Hbad as (i & Hin & Hi).
      rewrite Forall_forall in Hall. specialize (Hall i Hin).
      unfold in_range in Hall. lia.
  - split.
    + intros _. destruct (decide (Exists (fun i => i < 0 \/ len <= i) all)) as [H|H].
      * exact H.
      * exfalso. destruct Hex as [msg Hex].
        assert (Hall : Forall (in_range len) all).
        { apply Forall_forall. intros i Hin. unfold in_range.
          destruct (Z_lt_dec i 0) as [Hlt|Hge].
          - exfalso; apply H, Exists_exists; exists i; split; [exact Hin | left; exact Hlt].
          - destruct (Z_le_dec len i) as [Hle|Hgt].
            + exfalso; apply H, Exists_exists; exists i; split; [exact Hin | right; exact Hle].
            + lia. }
        apply check_indices_Ok in Hall. rewrite Hall in Hex. discriminate.
    + intros _. destruct Hex as [msg Hex]. exists msg. rewrite Hex. reflexivity.
Qed.

Lemma format_track_exit_iff_witness :
  Forall (in_range 2) [1; 0] /\
  ~ is_exit (format_track (mk false "ecasound" false false [1] [0] true)
                          (mkTrack [Examples.A; Examples.B] 2 48000 None)).
Proof.
  split.
  - repeat constructor; unfold in_range; lia.
  - apply (proj2 (format_track_exit_iff
                    (mk false "ecasound" false false [1] [0] true)
                    (mkTrack [Examples.A; Examples.B] 2 48000 None))).
    repeat constructor; unfold in_range; simpl; lia.
Defined.

(** ** What the parts of the formatter read from [self] *)

Lemma format_value_self self self' v : format_value self v = format_value self' v.
Proof. reflexivity. Qed.

Lemma format_plugin_self self self' i p :
  no_description self = no_description self' ->
  format_plugin self i p = format_plugin self' i p.
Proof. unfold format_plugin. intros ->. reflexivity. Qed.

Lemma collect_self self self' track indices acc :
  include_disabled self = include_disabled self' ->
  collect self track indices acc = collect self' track indices acc.
Proof.
  intros H. revert acc; induction indices as [|i rest IH]; intros acc; simpl.
  - reflexivity.
  - destruct (getitem _ _); simpl; [|reflexivity]. rewrite H, !IH. reflexivity.
Qed.

Lemma mapM_ext {A B} (f g : A -> result B) (l : list A) :
  (forall x, f x = g x) -> mapM f l = mapM g l.
Proof.
  intros H; induction l as [|x l IH]; [reflexivity|].
  rewrite !mapM_cons, H, IH. reflexivity.
Qed.

(** ** Worked examples *)

(** C2.  The track with the plugins A (enabled, id 1, values 1.0 and 0.5)
    and B (disabled, id 2, value 3), no index lists, descriptions on, one
    plugin per line and no chain setup: with disabled plugins included the
    result is the two renderings, B's command commented out, joined by a
    line feed; without them it is A's two lines alone.  Channel count,
    sample rate, track name and client name do not matter. *)
Theorem format_track_example (nch rate : Z) (tname : option string) (client : string) :
  let track := mkTrack [Examples.A; Examples.B] nch rate tname in
  format_track (mk false client false false [] [] true) track
    = Ok (join nl ["# 0: A" +:+ nl +:+ "-eli:1,1,0.5";
                   "# 1: B" +:+ nl +:+ "# -eli:2,3"]) /\
  format_track (mk false client false false [] [] false) track
    = Ok ("# 0: A" +:+ nl +:+ "-eli:1,1,0.5").
Proof. split; vm_compute; reflexivity. Qed.

(** C6.  With chain setup requested the result of [format_track] is the
    line [-f:f32,<channels>,<rate> -G:jack,<client>,notransport -i:jack
    -o:jack], an empty line, and then what [format_track] gives without
    chain setup; an exception of the latter is passed on.  For the rack
    file with two channels, 44100 Hz and the plugin 3 with values 0.2 and
    0.8, and the client name myclient, that is the preamble, an empty line
    and the plugin line (after its description line when descriptions are
    on). *)
Theorem format_track_chain_setup
    (client : string) (sl nd : bool) (inc exc : list Z) (dis : bool) (track : Track) :
  format_track (mk true client sl nd inc exc dis) track
    = (fun lines =>
         "-f:f32," +:+ str_int (nchannels track) +:+ "," +:+
         str_int (samplerate track) +:+ " -G:jack," +:+ client +:+
         ",notransport -i:jack -o:jack" +:+ nl +:+ nl +:+ lines)
      <$> format_track (mk false client sl nd inc exc dis) track
  /\ (track ← JackRack.track Examples.rack;
      format_track (mk true "myclient" false true [] [] false) track)
     = Ok ("-f:f32,2,44100 -G:jack,myclient,notransport -i:jack -o:jack"
           +:+ nl +:+ nl +:+ "-eli:3,0.2,0.8")
  /\ (track ← JackRack.track Examples.rack;
      format_track (mk true "myclient" false false [] [] false) track)
     = Ok ("-f:f32,2,44100 -G:jack,myclient,notransport -i:jack -o:jack"
           +:+ nl +:+ nl +:+ "# 0: " +:+ nl +:+ "-eli:3,0.2,0.8").
Proof.
  split; [|split; vm_compute; reflexivity].
  unfold format_track; simpl.
  destruct (check_indices _ _); simpl; [|reflexivity].
  rewrite (collect_self _ (mk false client sl nd inc exc dis)) by reflexivity.
  destruct (collect _ _ _ _) as [sel|]; simpl; [|reflexivity].
  rewrite (mapM_ext _ (fun ip => format_plugin (mk false client sl nd inc exc dis) ip.1 ip.2))
    by (intros; apply format_plugin_self; reflexivity).
  destruct (mapM _ _); simpl; [|reflexivity].
  unfold preamble; simpl. rewrite !append_assoc. reflexivity.
Qed.

(** ** The selection of plugins *)

Lemma getitem_in_range {A} (l : list A) (i : Z) :
  in_range (Z.of_nat (length l)) i ->
  exists a, l !! Z.to_nat i = Some a /\ getitem l i = Ok a.
Proof.
  unfold in_range, getitem. intros [Hlo Hhi].
  destruct (i <? 0) eqn:E1; [lia|].
  destruct (i <? 0) eqn:E2; [lia|].
  destruct (Z.of_nat (length l) <=? i) eqn:E3; [lia|]. simpl.
  destruct (l !! Z.to_nat i) as [a|] eqn:Hl.
  - exists a; split; reflexivity.
  - apply lookup_ge_None in Hl. lia.
Qed.

Lemma collect_kept self track indices acc :
  Forall (in_range (Z.of_nat (length (plugins track)))) indices ->
  collect self track indices acc = Ok (acc ++ kept self track indices)%list.
Proof.
  intros H. revert acc. induction H as [|i rest Hi _ IH]; intros acc; simpl.
  - rewrite app_nil_r. reflexivity.
  - destruct (getitem_in_range _ _ Hi) as (p & Hp & ->). simpl.
    unfold kept; simpl. rewrite Hp.
    destruct (enabled p || include_disabled self); rewrite IH.
    + rewrite <- app_assoc. reflexivity.
    + reflexivity.
Qed.

Lemma range_sorted (n : nat) : StronglySorted Z.lt (range n).
Proof.
  unfold range. generalize 0%nat.
  induction n as [|n IH]; intros k; simpl; constructor.
  - apply IH.
  - apply Forall_forall. intros x Hx.
    apply list_elem_of_In, in_map_iff in Hx as (y & <- & Hy).
    apply in_seq in Hy. lia.
Qed.

Lemma elem_of_range (n : nat) (i : Z) : i ∈ range n <-> in_range (Z.of_nat n) i.
Proof.
  unfold range, in_range. rewrite list_elem_of_In, in_map_iff. split.
  - intros (y & <- & Hy). apply in_seq in Hy. lia.
  - intros H. exists (Z.to_nat i). split; [lia | apply in_seq; lia].
Qed.

Lemma filter_sorted {A} (R : A -> A -> Prop) (f : A -> bool) (l : list A) :
  StronglySorted R l -> StronglySorted R (List.filter f l).
Proof.
  induction 1 as [|x l Hl IH Hx]; simpl; [constructor|].
  destruct (f x); [|exact IH]. constructor; [exact IH|].
  apply Forall_forall. intros y Hy.
  apply list_elem_of_In, filter_In in Hy as [Hy _].
  rewrite Forall_forall in Hx. apply Hx, list_elem_of_In, Hy.
Qed.

Lemma format_track_render self track indices :
  Forall (in_range (Z.of_nat (length (plugins track))))
         (include_indices self ++ exclude_indices self) ->
  indices = match include_indices self with
            | _ :: _ => include_indices self
            | [] => List.filter
                      (fun i => negb (bool_decide (i ∈ exclude_indices self)))
                      (range (length (plugins track)))
            end ->
  format_track self track = render self track (kept self track indices).
Proof.
  intros Hall Hidx. unfold format_track.
  rewrite (proj2 (check_indices_Ok _ _) Hall). simpl. rewrite <- Hidx.
  rewrite collect_kept.
  - simpl. unfold render. destruct (mapM _ _); simpl; [|reflexivity].
    destruct (chain_setup self); reflexivity.
  - subst indices. destruct (include_indices self) as [|i l] eqn:Hinc.
    + apply Forall_forall. intros i Hi.
      apply list_elem_of_In, filter_In in Hi as [Hi _].
      apply elem_of_range, list_elem_of_In, Hi.
    + rewrite <- Hinc in *. apply Forall_app in Hall as [H _]. exact H.
Qed.

(** C3.  Once the index check has passed, [format_track] renders the
    plugins chosen by a list of indices which, when the inclusion list is
    not empty, is that list in the order given and otherwise holds, in
    ascending order, exactly the indices of [0, plugin_count) that are not
    in the exclusion list.  With both lists empty these are all indices in
    ascending order, so that every enabled plugin, and every disabled one
    too when disabled plugins are included, is rendered in the order of
    the track; the command of a disabled plugin stands behind [# ]. *)
Theorem format_track_selection (self : EcasoundOutput.t) (track : Track) :
  let len := Z.of_nat (length (plugins track)) in
  Forall (in_range len) (include_indices self ++ exclude_indices self) ->
  (exists indices : list Z,
     (include_indices self <> [] -> indices = include_indices self) /\
     (include_indices self = [] ->
      StronglySorted Z.lt indices /\
      forall i, i ∈ indices <-> in_range len i /\ i ∉ exclude_indices self) /\
     format_track self track = render self track (kept self track indices)) /\
  (include_indices self = [] -> exclude_indices self = [] ->
   format_track self track
     = render self track (kept self track (range (length (plugins track))))) /\
  (forall i p, enabled p = false ->
     format_plugin self i p
       = (fun cmd =>
            (if no_description self then ""
             else "# " +:+ str_int i +:+ ": " +:+ default "" (name p) +:+ nl)
            +:+ "# " +:+ cmd)
         <$> format_cmdline p (format_value self)).
Proof.
  intros len Hall. split; [|split].
  3:{ intros i p Hen. unfold format_plugin. rewrite Hen.
      destruct (format_cmdline p (format_value self)) as [cmd|e]; [|reflexivity].
      cbn [mbind result_bind fmap result_fmap mret result_ret negb].
      destruct (no_description self); [reflexivity|]. cbn [negb].
      destruct (name p) as [n|]; [|reflexivity].
      destruct (String.eqb n "") eqn:E; [|reflexivity].
      apply String.eqb_eq in E as ->. reflexivity. }
  - eexists. split; [|split; [|apply (format_track_render _ _ _ Hall); reflexivity]].
    + destruct (include_indices self); [congruence | reflexivity].
    + intros ->. split.
      * apply filter_sorted, range_sorted.
      * intros i. rewrite list_elem_of_In, filter_In, <- list_elem_of_In, elem_of_range.
        rewrite negb_true_iff, bool_decide_eq_false. reflexivity.
  - intros Hinc Hexc. apply (format_track_render _ _ _ Hall).
    rewrite Hinc, Hexc. simpl.
    induction (range _) as [|i l IH]; simpl; [reflexivity|].
    f_equal. exact IH.
Qed.

(** ** Ardour 2 routes *)

Lemma get_Ok key t v : get key t = Ok v <-> attrs_of t !! key = Some v.
Proof.
  unfold get. destruct (attrs_of t !! key); split; intros H; congruence.
Qed.

Lemma eqb_string_eq (a b : string) : String.eqb a b = true <-> a = b.
Proof. apply String.eqb_eq. Qed.

Lemma scan_inserts_spec inserts pre0 post0 pre post :
  Ardour2Session.scan_inserts inserts pre0 post0 = Ok (pre, post) ->
  exists pre' post',
    pre = (pre0 ++ pre')%list /\ post = (post0 ++ post')%list /\
    Forall2 (fun i p => unit_of i = Ok p)
            (List.filter (fun i => is_unit i && negb (post_fader i)) inserts) pre' /\
    Forall2 (fun i p => unit_of i = Ok p)
            (List.filter (fun i => is_unit i && post_fader i) inserts) post'.
Proof.
  revert pre0 post0. induction inserts as [|insert rest IH]; intros pre0 post0 H.
  - injection H as <- <-. exists [], []. rewrite !app_nil_r.
    repeat split; constructor.
  - cbn [Ardour2Session.scan_inserts] in H.
    apply bind_Ok in H as (type & Htype & H).
    apply bind_Ok in H as (redirect & Hred & H).
    apply bind_Ok in H as (placement & Hpl & H).
    apply get_Ok in Htype. apply get_Ok in Hpl.
    destruct (find "Redirect" insert) as [r|] eqn:Hr; [|discriminate].
    injection Hred as ->.
    assert (Hpost : post_fader insert = String.eqb placement "PostFader").
    { unfold post_fader. rewrite Hr, Hpl.
      destruct (String.eqb placement "PostFader") eqn:E.
      - apply String.eqb_eq in E as ->. apply bool_decide_eq_true_2. reflexivity.
      - apply String.eqb_neq in E. apply bool_decide_eq_false_2. congruence. }
    cbn [List.filter]. rewrite Hpost.
    destruct (String.eqb type "ladspa") eqn:Elad.
    { apply String.eqb_eq in Elad as ->.
      assert (Hunit : is_unit insert = true).
      { apply bool_decide_eq_true_2. left; exact Htype. }
      assert (Hof : unit_of insert = Ardour2Session.parse_ladspa insert).
      { unfold unit_of. rewrite bool_decide_eq_true_2 by exact Htype. reflexivity. }
      rewrite Hunit. apply bind_Ok in H as (plugin & Hplug & H).
      destruct (String.eqb placement "PostFader"); cbn [andb negb];
        apply IH in H as (pre' & post' & -> & -> & Hpre & Hpo).
      - exists pre', (plugin :: post'). rewrite <- app_assoc.
        repeat split; [exact Hpre|]. constructor; [congruence | exact Hpo].
      - exists (plugin :: pre'), post'. rewrite <- app_assoc.
        repeat split; [|exact Hpo]. constructor; [congruence | exact Hpre]. }
    destruct (String.eqb type "lv2") eqn:Elv2.
    { apply String.eqb_eq in Elv2 as ->.
      assert (Hunit : is_unit insert = true).
      { apply bool_decide_eq_true_2. right; exact Htype. }
      assert (Hof : unit_of insert = Ardour2Session.parse_lv2 insert).
      { unfold unit_of. rewrite bool_decide_eq_false_2 by (rewrite Htype; congruence).
        reflexivity. }
      rewrite Hunit. apply bind_Ok in H as (plugin & Hplug & H).
      destruct (String.eqb placement "PostFader"); cbn [andb negb];
        apply IH in H as (pre' & post' & -> & -> & Hpre & Hpo).
      - exists pre', (plugin :: post'). rewrite <- app_assoc.
        repeat split; [exact Hpre|]. constructor; [congruence | exact Hpo].
      - exists (plugin :: pre'), post'. rewrite <- app_assoc.
        repeat split; [|exact Hpo]. constructor; [congruence | exact Hpre]. }
    assert (Hunit : is_unit insert = false).
    { apply bool_decide_eq_false_2. rewrite Htype.
      apply String.eqb_neq in Elad, Elv2. intros [[=]|[=]]; congruence. }
    rewrite Hunit. cbn [andb]. apply IH in H. exact H.
Qed.

Lemma scan_inserts_total inserts pre0 post0 :
  Forall readable inserts ->
  Forall (fun i => is_unit i = true -> is_Ok (unit_of i)) inserts ->
  is_Ok (Ardour2Session.scan_inserts inserts pre0 post0).
Proof.
  intros Hread. revert pre0 post0.
  induction Hread as [|insert rest Hi _ IH]; intros pre0 post0 Hunits.
  - eexists; reflexivity.
  - inversion Hunits as [|? ? Hu Hrest]; subst.
    destruct Hi as [[type Htype] (r & Hr & [placement Hpl])].
    cbn [Ardour2Session.scan_inserts].
    rewrite (proj2 (get_Ok _ _ _) Htype). cbn [mbind result_bind].
    rewrite Hr. cbn [subscriptable mbind result_bind].
    rewrite (proj2 (get_Ok _ _ _) Hpl). cbn [mbind result_bind].
    destruct (String.eqb type "ladspa") eqn:Elad.
    { apply String.eqb_eq in Elad as ->.
      destruct Hu as [p Hp]; [apply bool_decide_eq_true_2; left; exact Htype|].
      unfold unit_of in Hp. rewrite bool_decide_eq_true_2 in Hp by exact Htype.
      rewrite Hp. cbn [mbind result_bind].
      destruct (String.eqb placement "PostFader"); apply IH, Hrest. }
    destruct (String.eqb type "lv2") eqn:Elv2.
    { apply String.eqb_eq in Elv2 as ->.
      destruct Hu as [p Hp]; [apply bool_decide_eq_true_2; right; exact Htype|].
      unfold unit_of in Hp.
      rewrite bool_decide_eq_false_2 in Hp by (rewrite Htype; congruence).
      rewrite Hp. cbn [mbind result_bind].
      destruct (String.eqb placement "PostFader"); apply IH, Hrest. }
    apply IH, Hrest.
Qed.

(** C5.  The plugins of a track that the Ardour 2 parser returns are the
    units (inserts of type [ladspa] or [lv2]) that are not post-fader, in
    document order, followed by the post-fader units, in document order,
    each parsed by the parser of its type; inserts of another type leave
    no trace.  And they raise nothing: the loop over the inserts returns
    as soon as the type and the placement of every insert can be read and
    every unit parses. *)
Theorem parse_route_plugin_order (soup route : Bs4.node) :
  let inserts := find_all "Insert" route in
  (forall track,
     Ardour2Session.parse_route soup route = Ok track ->
     exists pre post,
       Forall2 (fun i p => unit_of i = Ok p)
               (List.filter (fun i => is_unit i && negb (post_fader i)) inserts) pre /\
       Forall2 (fun i p => unit_of i = Ok p)
               (List.filter (fun i => is_unit i && post_fader i) inserts) post /\
       plugins track = (pre ++ post)%list) /\
  (Forall readable inserts ->
   Forall (fun i => is_unit i = true -> is_Ok (unit_of i)) inserts ->
   is_Ok (Ardour2Session.scan_inserts inserts [] [])).
Proof.
  intros inserts. split; [|apply scan_inserts_total].
  intros track H. unfold Ardour2Session.parse_route in H.
  apply bind_Ok in H as (io & _ & H).
  apply bind_Ok in H as (nch & _ & H).
  apply bind_Ok in H as (session & _ & H).
  apply bind_Ok in H as (rate & _ & H).
  apply bind_Ok in H as (sr & _ & H).
  apply bind_Ok in H as (nm & _ & H).
  apply bind_Ok in H as ([pre post] & Hscan & H).
  injection H as <-. simpl.
  apply scan_inserts_spec in Hscan as (pre' & post' & -> & -> & Hpre & Hpost).
  exists pre', post'. repeat split; assumption.
Qed.

Lemma parse_route_plugin_order_witness :
  (Forall readable (find_all "Insert" Examples.route) /\
   Forall (fun i => is_unit i = true -> is_Ok (unit_of i))
          (find_all "Insert" Examples.route) /\
   is_Ok (Ardour2Session.scan_inserts (find_all "Insert" Examples.route) [] [])) /\
  Ardour2Session.parse_route Examples.session Examples.route
    = Ok (mkTrack [LV2Plugin "urn:eq" [Some "2"] false (Some "EQ");
                   LadspaPlugin 11 [Some "1e-3"] true (Some "Gate");
                   LadspaPlugin 10 [Some "0.9"] true (Some "Limiter")]
                  2 48000 (Some "Audio 1")) /\
  exists pre post,
    Forall2 (fun i p => unit_of i = Ok p)
            (List.filter (fun i => is_unit i && negb (post_fader i))
                         (find_all "Insert" Examples.route)) pre /\
    Forall2 (fun i p => unit_of i = Ok p)
            (List.filter (fun i => is_unit i && post_fader i)
                         (find_all "Insert" Examples.route)) post /\
    [LV2Plugin "urn:eq" [Some "2"] false (Some "EQ");
     LadspaPlugin 11 [Some "1e-3"] true (Some "Gate");
     LadspaPlugin 10 [Some "0.9"] true (Some "Limiter")] = (pre ++ post)%list.
Proof.
  assert (Hread : Forall readable (find_all "Insert" Examples.route)).
  { set (l := find_all "Insert" Examples.route). vm_compute in l. subst l.
    repeat constructor;
      try (eexists; vm_compute; reflexivity);
      (eexists; split; [vm_compute; reflexivity | eexists; vm_compute; reflexivity]). }
  assert (Hunits : Forall (fun i => is_unit i = true -> is_Ok (unit_of i))
                          (find_all "Insert" Examples.route)).
  { set (l := find_all "Insert" Examples.route). vm_compute in l. subst l.
    repeat constructor; intros Hu;
      first [ eexists; vm_compute; reflexivity | vm_compute in Hu; discriminate ]. }
  split.
  { split; [exact Hread | split; [exact Hunits|]].
    exact (proj2 (parse_route_plugin_order Examples.session Examples.route)
                 Hread Hunits). }
  split; [vm_compute; reflexivity|].
  apply (proj1 (parse_route_plugin_order Examples.session Examples.route)
               (mkTrack [LV2Plugin "urn:eq" [Some "2"] false (Some "EQ");
                         LadspaPlugin 11 [Some "1e-3"] true (Some "Gate");
                         LadspaPlugin 10 [Some "0.9"] true (Some "Limiter")]
                        2 48000 (Some "Audio 1"))).
  vm_compute; reflexivity.
Defined.

(** C8.  The channel count of a track that the Ardour 2 parser returns:
    when the IO element of the route has an [input-connection] attribute,
    2 if that attribute holds a [+] and 1 if not; otherwise the number of
    [{] in the [inputs] attribute of the IO element. *)
Theorem parse_route_nchannels (soup route : Bs4.node) (track : Track) :
  Ardour2Session.parse_route soup route = Ok track ->
  exists io,
    find "IO" route = Some io /\
    match attrs_of io !! "input-connection" with
    | Some conn => nchannels track = if contains_char "+" conn then 2 else 1
    | None =>
        exists inputs, attrs_of io !! "inputs" = Some inputs /\
                       nchannels track = Z.of_nat (count_char "{" inputs)
    end.
Proof.
  intros H. unfold Ardour2Session.parse_route in H.
  apply bind_Ok in H as (io & Hio & H).
  apply bind_Ok in H as (nch & Hnch & H).
  apply bind_Ok in H as (session & _ & H).
  apply bind_Ok in H as (rate & _ & H).
  apply bind_Ok in H as (sr & _ & H).
  apply bind_Ok in H as (nm & _ & H).
  apply bind_Ok in H as ([pre post] & _ & H).
  injection H as <-. simpl.
  destruct (find "IO" route) as [io'|]; [|discriminate].
  injection Hio as ->. exists io. split; [reflexivity|].
  unfold has_attr in Hnch.
  destruct (attrs_of io !! "input-connection") as [conn|] eqn:Hconn.
  - rewrite bool_decide_eq_true_2 in Hnch by (eexists; reflexivity).
    apply bind_Ok in Hnch as (conn' & Hc & Hnch).
    apply get_Ok in Hc. rewrite Hconn in Hc. injection Hc as <-.
    injection Hnch as <-. reflexivity.
  - rewrite bool_decide_eq_false_2 in Hnch by (intros [? ?]; discriminate).
    apply bind_Ok in Hnch as (inputs & Hi & Hnch).
    apply get_Ok in Hi. injection Hnch as <-.
    exists inputs. split; [exact Hi | reflexivity].
Qed.

Lemma parse_route_nchannels_witness :
  (exists io,
     find "IO" Examples.route = Some io /\
     match attrs_of io !! "input-connection" with
     | Some conn => 2 = if contains_char "+" conn then 2 else 1
     | None =>
         exists inputs, attrs_of io !! "inputs" = Some inputs /\
                        2 = Z.of_nat (count_char "{" inputs)
     end) /\
  (exists io,
     find "IO" Examples.bus = Some io /\
     match attrs_of io !! "input-connection" with
     | Some conn => 2 = if contains_char "+" conn then 2 else 1
     | None =>
         exists inputs, attrs_of io !! "inputs" = Some inputs /\
                        2 = Z.of_nat (count_char "{" inputs)
     end).
Proof.
  split.
  - apply (parse_route_nchannels Examples.session Examples.route
             (mkTrack [LV2Plugin "urn:eq" [Some "2"] false (Some "EQ");
                       LadspaPlugin 11 [Some "1e-3"] true (Some "Gate");
                       LadspaPlugin 10 [Some "0.9"] true (Some "Limiter")]
                      2 48000 (Some "Audio 1"))).
    vm_compute; reflexivity.
  - apply (parse_route_nchannels Examples.session Examples.bus
             (mkTrack [] 2 48000 (Some "Bus"))).
    vm_compute; reflexivity.
Defined.

(** ** Plugins without a name *)

(** C9.  Every plugin the JACK Rack parser returns has no name, and a
    plugin without a name is formatted like any other when descriptions
    are on: the description line is [# <index>: ] with nothing after the
    colon and the blank, and the command of the plugin follows on the next
    line, behind [# ] when the plugin is disabled.  The missing name raises
    nothing: the result is an exception only where the command itself is
    one. *)
Theorem format_plugin_without_name :
  (forall xml plugin, JackRack.parse_ladspa xml = Ok plugin -> name plugin = None) /\
  (forall self index plugin,
     name plugin = None -> no_description self = false ->
     format_plugin self index plugin
       = (fun cmd => "# " +:+ str_int index +:+ ": " +:+ nl +:+
                     (if enabled plugin then "" else "# ") +:+ cmd)
         <$> format_cmdline plugin (format_value self)).
Proof.
  split.
  - intros xml plugin H. unfold JackRack.parse_ladspa in H.
    apply bind_Ok in H as (en & _ & H).
    apply bind_Ok in H as (id & _ & H).
    apply bind_Ok in H as (uid & _ & H).
    apply bind_Ok in H as (vs & _ & H).
    injection H as <-. reflexivity.
  - intros self index plugin Hname Hdesc. unfold format_plugin.
    rewrite Hname, Hdesc.
    destruct (format_cmdline plugin (format_value self)) as [cmd|e]; [|reflexivity].
    cbn [mbind result_bind fmap result_fmap mret result_ret negb].
    f_equal. rewrite !append_assoc. destruct (enabled plugin); reflexivity.
Qed.

Lemma format_plugin_without_name_witness :
  (JackRack.parse_ladspa
     (Examples.elem "plugin" []
        [Examples.leaf "id" "3"; Examples.leaf "enabled" "false";
         Examples.elem "controlrow" [] [Examples.leaf "value" "0.2"]])
   = Ok (LadspaPlugin 3 [Some "0.2"] false None)) /\
  name (LadspaPlugin 3 [Some "0.2"] false None) = None /\
  format_plugin (mk false "ecasound" false false [] [] true) 0
                (LadspaPlugin 3 [Some "0.2"] false None)
    = Ok ("# 0: " +:+ nl +:+ "# -eli:3,0.2").
Proof.
  split; [vm_compute; reflexivity|].
  split.
  - apply (proj1 format_plugin_without_name
             (Examples.elem "plugin" []
                [Examples.leaf "id" "3"; Examples.leaf "enabled" "false";
                 Examples.elem "controlrow" [] [Examples.leaf "value" "0.2"]])).
    vm_compute; reflexivity.
  - rewrite (proj2 format_plugin_without_name
               (mk false "ecasound" false false [] [] true) 0
               (LadspaPlugin 3 [Some "0.2"] false None) eq_refl eq_refl).
    vm_compute; reflexivity.
Defined.

(** ** Tracks of which nothing is rendered *)

Lemma kept_nil self track indices :
  (forall i p, i ∈ indices -> plugins track !! Z.to_nat i = Some p ->
               enabled p || include_disabled self = false) ->
  kept self track indices = [].
Proof.
  induction indices as [|i rest IH]; intros H; [reflexivity|].
  unfold kept in *. cbn [omap list_omap].
  destruct (plugins track !! Z.to_nat i) as [p|] eqn:Hp.
  - rewrite (H i p) by (try left; assumption).
    apply IH. intros j q Hj. apply H. right; exact Hj.
  - apply IH. intros j q Hj. apply H. right; exact Hj.
Qed.

(** C10.  When the index check passes and the indices that step 2 selects
    lead to no plugin that is rendered, because the track has no plugins or
    because every selected plugin is disabled and disabled plugins are not
    included, [format_track] returns: the empty string, or in chain-setup
    mode the preamble followed by an empty line and nothing more. *)
Theorem format_track_nothing_selected (self : EcasoundOutput.t) (track : Track) :
  Forall (in_range (Z.of_nat (length (plugins track))))
         (include_indices self ++ exclude_indices self) ->
  plugins track = [] \/
  (include_disabled self = false /\
   forall i p, selects self track i ->
               plugins track !! Z.to_nat i = Some p -> enabled p = false) ->
  format_track self track
    = Ok (if chain_setup self
          then "-f:f32," +:+ str_int (nchannels track) +:+ "," +:+
               str_int (samplerate track) +:+ " -G:jack," +:+ client_name self +:+
               ",notransport -i:jack -o:jack" +:+ nl +:+ nl
          else "").
Proof.
  intros Hall Hsel.
  rewrite (format_track_render self track _ Hall eq_refl).
  rewrite kept_nil.
  - unfold render, preamble. cbn [mapM mbind result_bind mret result_ret join].
    destruct (chain_setup self); [|reflexivity].
    rewrite !append_assoc. destruct (single_line self); reflexivity.
  - intros i p Hi Hp. destruct Hsel as [Hnil | [Hdis Hsel]].
    + rewrite Hnil in Hp. rewrite lookup_nil in Hp. discriminate.
    + rewrite Hdis, orb_false_r. apply (Hsel i p); [|exact Hp].
      unfold selects. destruct (include_indices self) as [|j l] eqn:Hinc.
      * apply list_elem_of_In, filter_In in Hi as [Hi Hex].
        split; [apply elem_of_range, list_elem_of_In, Hi|].
        apply negb_true_iff, bool_decide_eq_false in Hex. exact Hex.
      * exact Hi.
Qed.

Lemma format_track_nothing_selected_witness :
  (Forall (in_range 2) [1] /\
   format_track (mk true "ecasound" false false [1] [] false)
                (mkTrack [Examples.A; Examples.B] 2 48000 None)
     = Ok ("-f:f32,2,48000 -G:jack,ecasound,notransport -i:jack -o:jack"
           +:+ nl +:+ nl)) /\
  format_track (mk false "ecasound" false false [] [] true)
               (mkTrack [] 2 48000 None) = Ok "".
Proof.
  split; [split|].
  - repeat constructor; unfold in_range; lia.
  - apply (format_track_nothing_selected
             (mk true "ecasound" false false [1] [] false)
             (mkTrack [Examples.A; Examples.B] 2 48000 None)).
    + repeat constructor; unfold in_range; simpl; lia.
    + right. split; [reflexivity|].
      intros i p Hi Hp. unfold selects in Hi; simpl in Hi.
      apply list_elem_of_singleton in Hi as ->.
      simpl in Hp. injection Hp as <-. reflexivity.
  - apply (format_track_nothing_selected
             (mk false "ecasound" false false [] [] true)
             (mkTrack [] 2 48000 None)).
    + constructor.
    + left; reflexivity.
Defined.

Lemma format_track_selection_witness :
  Forall (in_range 2) [1; 0] /\
  (exists indices : list Z,
     ([1; 0] <> [] -> indices = [1; 0]) /\
     ([1; 0] = [] ->
      StronglySorted Z.lt indices /\
      forall i, i ∈ indices <-> in_range 2 i /\ i ∉ []) /\
     format_track (mk false "ecasound" false false [1; 0] [] true)
                  (mkTrack [Examples.A; Examples.B] 2 48000 None)
       = render (mk false "ecasound" false false [1; 0] [] true)
                (mkTrack [Examples.A; Examples.B] 2 48000 None)
                (kept (mk false "ecasound" false false [1; 0] [] true)
                      (mkTrack [Examples.A; Examples.B] 2 48000 None) indices)) /\
  format_track (mk false "ecasound" false false [1; 0] [] true)
               (mkTrack [Examples.A; Examples.B] 2 48000 None)
    = Ok (join nl ["# 1: B" +:+ nl +:+ "# -eli:2,3";
                   "# 0: A" +:+ nl +:+ "-eli:1,1,0.5"]).
Proof.
  split; [repeat constructor; unfold in_range; lia|].
  split; [|vm_compute; reflexivity].
  apply (proj1 (format_track_selection
                  (mk false "ecasound" false false [1; 0] [] true)
                  (mkTrack [Examples.A; Examples.B] 2 48000 None)
                  ltac:(repeat constructor; unfold in_range; simpl; lia))).
Defined.

(** ** Sessions *)

Lemma format_session_mapM self tracks names bodies :
  Forall2 (fun t n => track_name t = Some n) tracks names ->
  Forall2 (fun t b => format_track self t = Ok b) tracks bodies ->
  mapM (format_block self) tracks
  = Ok (zip_with (fun n b => n +:+ ":" +:+ nl +:+
                             repeat_char "-" (len n + 1) +:+ nl +:+ b)
                 names bodies).
Proof.
  intros Hn. revert bodies.
  induction Hn as [|t n tracks names Hname _ IH]; intros bodies Hb;
    inversion Hb as [|? b ? bodies' Hbody Hrest]; subst; [reflexivity|].
  rewrite mapM_cons, (IH _ Hrest). unfold format_block.
  rewrite Hname, Hbody. reflexivity.
Qed.

(** C7, as the code has it.  When every track has a name and is
    formatted without an exception, [format_session] returns one block per
    track, in order, the blocks separated by an empty line; a block is the
    name followed by a colon, a line of dashes as long as that heading,
    which is one more than the name is long, and the formatted track.
    Lengths are in characters, the code points that [len] counts, not in
    the bytes of their encoding. *)
Theorem format_session_blocks (self : EcasoundOutput.t) (tracks : list Track)
    (names bodies : list string) :
  Forall2 (fun t n => track_name t = Some n) tracks names ->
  Forall2 (fun t b => format_track self t = Ok b) tracks bodies ->
  format_session self tracks
    = Ok (join (nl +:+ nl)
            (zip_with (fun n b => n +:+ ":" +:+ nl +:+
                                  repeat_char "-" (len n + 1) +:+ nl +:+ b)
                      names bodies)) /\
  length (zip_with (fun n b => n +:+ ":" +:+ nl +:+
                               repeat_char "-" (len n + 1) +:+ nl +:+ b)
                   names bodies) = length tracks /\
  Forall (fun n => len (repeat_char "-" (len n + 1)) = len (n +:+ ":") /\
                   len (repeat_char "-" (len n + 1)) = S (len n) /\
                   String.length (repeat_char "-" (len n + 1)) = S (len n)) names.
Proof.
  intros Hn Hb. split; [|split].
  - unfold format_session. rewrite (format_session_mapM _ _ _ _ Hn Hb). reflexivity.
  - rewrite length_zip_with.
    apply Forall2_length in Hn, Hb. lia.
  - apply Forall_forall. intros n _.
    rewrite len_repeat_dash, length_repeat_char, len_append.
    change (len ":") with 1%nat. lia.
Qed.

Lemma format_session_blocks_witness :
  format_session (mk false "ecasound" false false [] [] false)
                 [mkTrack [Examples.A; Examples.B] 2 48000 (Some "Audio 1");
                  mkTrack [] 2 48000 (Some "Bäss");
                  mkTrack [] 2 48000 (Some "Bus")]
  = Ok ("Audio 1:" +:+ nl +:+ "--------" +:+ nl +:+
        "# 0: A" +:+ nl +:+ "-eli:1,1,0.5" +:+ nl +:+ nl +:+
        "Bäss:" +:+ nl +:+ "-----" +:+ nl +:+ nl +:+ nl +:+
        "Bus:" +:+ nl +:+ "----" +:+ nl).
Proof.
  apply (proj1 (format_session_blocks
                  (mk false "ecasound" false false [] [] false)
                  [mkTrack [Examples.A; Examples.B] 2 48000 (Some "Audio 1");
                   mkTrack [] 2 48000 (Some "Bäss");
                   mkTrack [] 2 48000 (Some "Bus")]
                  ["Audio 1"; "Bäss"; "Bus"]
                  ["# 0: A" +:+ nl +:+ "-eli:1,1,0.5"; ""; ""]
                  ltac:(repeat constructor)
                  ltac:(repeat constructor; vm_compute; reflexivity))).
Defined.

(** The underline is not as long as the name: under the name of the
    track Bus there are four dashes, and the name has three characters. *)
Lemma format_session_underline_counterexample :
  exists out underline,
    format_session (mk false "ecasound" false false [] [] false)
                   [mkTrack [] 2 48000 (Some "Bus")] = Ok out /\
    lines out !! 1%nat = Some underline /\
    String.length underline <> String.length "Bus".
Proof.
  eexists _, _. split; [vm_compute; reflexivity|].
  split; [vm_compute; reflexivity|]. vm_compute. discriminate.
Qed.

(** ** Values *)

(** C1 at a value beyond the range of a float.  [float] accepts the
    decimal strings [1e999] and 1 followed by 309 zeros and returns
    infinity; [int] of infinity raises [OverflowError], so [format_value]
    returns no string for them. *)
Theorem format_value_overflow (self : EcasoundOutput.t) :
  float_of (Some "1e999") = Ok (S754_infinity false) /\
  format_value self (Some "1e999") = Raise OverflowError /\
  float_of (Some ("1" +:+ repeat_char "0" 309)) = Ok (S754_infinity false) /\
  format_value self (Some ("1" +:+ repeat_char "0" 309)) = Raise OverflowError.
Proof. repeat split; vm_compute; reflexivity. Qed.

(** * Further properties of the code *)

(** ** The exceptions of [format_track] *)

Lemma check_indices_Raise indices len e :
  check_indices indices len = Raise e ->
  exists before i after,
    indices = (before ++ i :: after)%list /\
    Forall (in_range len) before /\ ~ in_range len i /\
    e = SystemExit ("error: plugin index " +:+ str_int i +:+ " is out of range").
Proof.
  induction indices as [|i rest IH]; simpl; [discriminate|].
  destruct ((i <? 0) || (len <=? i)) eqn:Hbad.
  - intros [= <-]. exists [], i, rest. repeat split.
    + constructor.
    + unfold in_range. apply orb_true_iff in Hbad as [H|H]; lia.
  - intros H. destruct (IH H) as (before & j & after & -> & Hb & Hj & ->).
    exists (i :: before), j, after. repeat split; [|exact Hj].
    constructor; [|exact Hb]. unfold in_range.
    apply orb_false_iff in Hbad as [H1 H2]. lia.
Qed.

Lemma format_track_exit_first self track msg :
  format_track self track = Raise (SystemExit msg) ->
  exists before i after,
    (include_indices self ++ exclude_indices self)%list
      = (before ++ i :: after)%list /\
    Forall (in_range (Z.of_nat (length (plugins track)))) before /\
    ~ in_range (Z.of_nat (length (plugins track))) i /\
    msg = "error: plugin index " +:+ str_int i +:+ " is out of range".
Proof.
  intros H. unfold format_track in H.
  apply bind_Raise in H as [H | (u & Hok & H)].
  - apply check_indices_Raise in H as (before & i & after & Heq & Hb & Hi & [= ->]).
    exists before, i, after. repeat split; assumption.
  - exfalso. revert H.
    apply no_exit_bind; [apply collect_no_exit | intros sel _].
    apply no_exit_bind;
      [apply no_exit_mapM; intros; apply format_plugin_no_exit | intros r _].
    destruct (chain_setup self); apply no_exit_Ok.
Qed.


(** X1.  When [format_track] ends the run, the message names the first
    index, in the order inclusion list then exclusion list, that is out of
    range. *)
Theorem format_track_exit_message (self : EcasoundOutput.t) (track : Track)
    (msg : string) :
  format_track self track = Raise (SystemExit msg) ->
  exists before i after,
    (include_indices self ++ exclude_indices self)%list
      = (before ++ i :: after)%list /\
    Forall (in_range (Z.of_nat (length (plugins track)))) before /\
    ~ in_range (Z.of_nat (length (plugins track))) i /\
    msg = "error: plugin index " +:+ str_int i +:+ " is out of range".
Proof.
  intros H. destruct (format_track_exit_first _ _ _ H)
    as (before & i & after & Hl & Hb & Hi & Hm).
  exists before, i, after. repeat split; assumption.
Qed.

Lemma format_track_exit_message_witness :
  exists before i after,
    ([1; 7; 0] ++ [9])%list = (before ++ i :: after)%list /\
    Forall (in_range 2) before /\ ~ in_range 2 i /\
    "error: plugin index 7 is out of range"
      = "error: plugin index " +:+ str_int i +:+ " is out of range".
Proof.
  apply (format_track_exit_message
           (mk false "ecasound" false false [1; 7; 0] [9] true)
           (mkTrack [Examples.A; Examples.B] 2 48000 None)
           "error: plugin index 7 is out of range").
  vm_compute; reflexivity.
Defined.

Lemma float_of_str_Raise s e : float_of_str s = Raise e -> e = ValueError.
Proof.
  unfold float_of_str.
  repeat (match goal with
          | |- context [let '(_, _) := ?x in _] => destruct x
          | |- context [if ?b then _ else _] => destruct b
          | |- context [match ?x with _ => _ end] => destruct x
          end; try discriminate); congruence.
Qed.

Lemma format_value_Raise self v e :
  format_value self v = Raise e -> value_error e.
Proof.
  unfold format_value, value_error. intros H.
  assert (Hf : forall e', float_of v = Raise e' -> e' = ValueError \/ e' = TypeError).
  { intros e' He. destruct v as [s|]; simpl in He.
    - left; exact (float_of_str_Raise _ _ He).
    - right; congruence. }
  apply bind_Raise in H as [H | (x & _ & H)]; [destruct (Hf _ H); auto|].
  apply bind_Raise in H as [H | (y & _ & H)]; [destruct (Hf _ H); auto|].
  apply bind_Raise in H as [H | (n & _ & H)].
  { destruct y; simpl in H; try discriminate; injection H as <-; auto. }
  apply bind_Raise in H as [H | (z & _ & H)].
  - unfold float_of_int in H.
    destruct (binary_normalize _ _ _ _ _); try discriminate.
    injection H as <-; auto.
  - destruct (float_eq z x); discriminate.
Qed.

Lemma format_plugin_Raise self i p e :
  format_plugin self i p = Raise e ->
  exists v, v ∈ values p /\ format_value self v = Raise e.
Proof.
  unfold format_plugin. intros H.
  apply bind_Raise in H as [H | (c & _ & H)]; [|discriminate].
  destruct p; simpl in *;
    (apply bind_Raise in H as [H | (c & _ & H)]; [|discriminate]);
    apply mapM_Raise in H; exact H.
Qed.

Lemma elem_of_kept self track indices i p :
  (i, p) ∈ kept self track indices ->
  i ∈ indices /\ plugins track !! Z.to_nat i = Some p /\
  enabled p || include_disabled self = true.
Proof.
  unfold kept. rewrite list_elem_of_omap. intros (j & Hj & H).
  destruct (plugins track !! Z.to_nat j) as [q|] eqn:Hq; [|discriminate].
  destruct (enabled q || include_disabled self) eqn:Hen; [|discriminate].
  injection H as <- <-. auto.
Qed.

Lemma format_track_Raise self track e :
  format_track self track = Raise e ->
  (exists msg, e = SystemExit msg) \/
  exists i p v, plugins track !! Z.to_nat i = Some p /\ v ∈ values p /\
                format_value self v = Raise e.
Proof.
  intros H. unfold format_track in H.
  apply bind_Raise in H as [H | ([] & Hok & H)].
  { left. apply check_indices_Raise in H as (_ & i & _ & _ & _ & _ & ->).
    eexists; reflexivity. }
  right. apply check_indices_Ok in Hok.
  rewrite collect_kept in H.
  2:{ destruct (include_indices self) as [|j l] eqn:Hinc.
      - apply Forall_forall. intros i Hi.
        apply list_elem_of_In, filter_In in Hi as [Hi _].
        apply elem_of_range, list_elem_of_In, Hi.
      - rewrite <- Hinc in *. apply Forall_app in Hok as [Hok _]. exact Hok. }
  cbn [mbind result_bind app] in H.
  apply bind_Raise in H as [H | (r & _ & H)].
  - apply mapM_Raise in H as ([i p] & Hin & H). cbn [fst snd] in H.
    apply elem_of_kept in Hin as (_ & Hp & _).
    apply format_plugin_Raise in H as (v & Hv & H).
    exists i, p, v. auto.
  - destruct (chain_setup self); discriminate.
Qed.

(** X2.  [format_track] raises nothing but the exit for an index out of
    range and the [ValueError], [TypeError] or [OverflowError] that a
    value of one of the track's plugins raises when it is read as a number:
    in particular [track.plugins[i]] never raises [IndexError]. *)
Theorem format_track_exceptions (self : EcasoundOutput.t) (track : Track)
    (e : exn) :
  format_track self track = Raise e ->
  (exists msg, e = SystemExit msg) \/
  (value_error e /\
   exists i p v, plugins track !! Z.to_nat i = Some p /\ v ∈ values p /\
                 format_value self v = Raise e).
Proof.
  intros H. apply format_track_Raise in H as [H | (i & p & v & Hp & Hv & H)].
  - left; exact H.
  - right. split; [exact (format_value_Raise _ _ _ H)|].
    exists i, p, v. auto.
Qed.

Lemma format_track_exceptions_witness :
  (exists msg, ValueError = SystemExit msg) \/
  (value_error ValueError /\
   exists i p v,
     [LadspaPlugin 1 [Some "0.5"; Some "loud"] true None] !! Z.to_nat i = Some p /\
     v ∈ values p /\
     format_value (mk false "ecasound" false false [] [] true) v = Raise ValueError).
Proof.
  apply (format_track_exceptions
           (mk false "ecasound" false false [] [] true)
           (mkTrack [LadspaPlugin 1 [Some "0.5"; Some "loud"] true None] 2 48000 None)
           ValueError).
  vm_compute; reflexivity.
Defined.

(** ** Sessions with a track that has no name *)

(** X3.  [format_session] raises [TypeError] at the first track without a
    name, whatever follows it, once the tracks before it have been
    formatted: the length of the name is taken before the track is
    formatted. *)
Theorem format_session_unnamed (self : EcasoundOutput.t)
    (before : list Track) (t : Track) (after : list Track) :
  Forall (fun t' => is_Some (track_name t') /\ is_Ok (format_track self t')) before ->
  track_name t = None ->
  format_session self (before ++ t :: after) = Raise TypeError.
Proof.
  intros Hb Ht. unfold format_session.
  assert (H : mapM (format_block self) (before ++ t :: after) = Raise TypeError).
  { induction Hb as [|t' rest [[n Hn] [b Hb']] _ IH].
    - cbn [app]. rewrite mapM_cons. unfold format_block. rewrite Ht. reflexivity.
    - cbn [app]. rewrite mapM_cons, IH. unfold format_block.
      rewrite Hn, Hb'. reflexivity. }
  rewrite H. reflexivity.
Qed.

Lemma format_session_unnamed_witness :
  format_session (mk false "ecasound" false false [] [] true)
    ([mkTrack [Examples.A] 2 48000 (Some "Bus")]
     ++ mkTrack [Examples.B] 2 48000 None :: [mkTrack [] 2 48000 (Some "Aux")])
  = Raise TypeError.
Proof.
  apply (format_session_unnamed
           (mk false "ecasound" false false [] [] true)
           [mkTrack [Examples.A] 2 48000 (Some "Bus")]
           (mkTrack [Examples.B] 2 48000 None)
           [mkTrack [] 2 48000 (Some "Aux")]).
  - repeat constructor; eexists; vm_compute; reflexivity.
  - reflexivity.
Defined.

(** ** Ardour 3 routes *)

Lemma scan_processors_spec processors acc plugins :
  Ardour3Session.scan_processors processors acc = Ok plugins ->
  exists new,
    plugins = (acc ++ new)%list /\
    Forall2 (fun i p => unit3_of i = Ok p) (List.filter is_unit processors) new.
Proof.
  revert acc. induction processors as [|x rest IH]; intros acc H.
  - injection H as <-. exists []. rewrite app_nil_r. split; [reflexivity | constructor].
  - cbn [Ardour3Session.scan_processors] in H.
    apply bind_Ok in H as (type & Htype & H). apply get_Ok in Htype.
    cbn [List.filter].
    destruct (String.eqb type "ladspa") eqn:Elad.
    { apply String.eqb_eq in Elad as ->.
      rewrite (bool_decide_eq_true_2 _ (or_introl Htype) : is_unit x = true).
      apply bind_Ok in H as (plugin & Hp & H).
      apply IH in H as (new & -> & Hnew).
      exists (plugin :: new). rewrite <- app_assoc. split; [reflexivity|].
      constructor; [|exact Hnew].
      unfold unit3_of. rewrite bool_decide_eq_true_2 by exact Htype. exact Hp. }
    destruct (String.eqb type "lv2") eqn:Elv2.
    { apply String.eqb_eq in Elv2 as ->.
      rewrite (bool_decide_eq_true_2 _ (or_intror Htype) : is_unit x = true).
      apply bind_Ok in H as (plugin & Hp & H).
      apply IH in H as (new & -> & Hnew).
      exists (plugin :: new). rewrite <- app_assoc. split; [reflexivity|].
      constructor; [|exact Hnew].
      unfold unit3_of. rewrite bool_decide_eq_false_2 by (rewrite Htype; congruence).
      exact Hp. }
    assert (Hunit : is_unit x = false).
    { apply bool_decide_eq_false_2. rewrite Htype.
      apply String.eqb_neq in Elad, Elv2. intros [[=]|[=]]; congruence. }
    rewrite Hunit. apply IH, H.
Qed.

(** X4.  The Ardour 3 parser keeps the document order: the plugins of a
    track it returns are the processors of type [ladspa] or [lv2] of the
    route, in document order, each parsed by the parser of its type, and
    processors of another type leave no trace.  The channel count is the
    number of [Port] elements below the first [IO] element of the route
    whose direction is [Input]. *)
Theorem parse_route3_plugin_order (soup route : Bs4.node) (track : Track) :
  Ardour3Session.parse_route soup route = Ok track ->
  Forall2 (fun i p => unit3_of i = Ok p)
          (List.filter is_unit (find_all "Processor" route)) (plugins track) /\
  exists input,
    find_with "IO" "direction" "Input" route = Some input /\
    nchannels track = Z.of_nat (length (find_all "Port" input)).
Proof.
  intros H. unfold Ardour3Session.parse_route in H.
  apply bind_Ok in H as (input & Hin & H).
  apply bind_Ok in H as (session & _ & H).
  apply bind_Ok in H as (rate & _ & H).
  apply bind_Ok in H as (sr & _ & H).
  apply bind_Ok in H as (io & _ & H).
  apply bind_Ok in H as (nm & _ & H).
  apply bind_Ok in H as (ps & Hscan & H).
  injection H as <-. cbn [plugins nchannels].
  apply scan_processors_spec in Hscan as (new & -> & Hnew). split; [exact Hnew|].
  destruct (find_with "IO" "direction" "Input" route) as [i|]; [|discriminate].
  injection Hin as ->. exists input. split; reflexivity.
Qed.

Lemma parse_route3_plugin_order_witness :
  Forall2 (fun i p => unit3_of i = Ok p)
          (List.filter is_unit (find_all "Processor" Examples.route3))
          [LadspaPlugin 1913 [Some "0.25"] true (Some "Comp");
           LV2Plugin "urn:verb" [Some "3.0"] false (Some "Verb")] /\
  exists input,
    find_with "IO" "direction" "Input" Examples.route3 = Some input /\
    2 = Z.of_nat (length (find_all "Port" input)).
Proof.
  apply (parse_route3_plugin_order Examples.session3 Examples.route3
           (mkTrack [LadspaPlugin 1913 [Some "0.25"] true (Some "Comp");
                     LV2Plugin "urn:verb" [Some "3.0"] false (Some "Verb")]
                    2 44100 (Some "Gtr"))).
  vm_compute; reflexivity.
Defined.

(** ** JACK Rack tracks *)

(** X5.  The track of a JACK Rack file has no name, and its plugins are
    the [plugin] elements of the rack in document order: each is a LADSPA
    plugin without a name, with one value per [controlrow] element, and
    enabled exactly when the text of its [enabled] element is [true]. *)
Theorem jackrack_track (soup : Bs4.node) (track : Track) :
  JackRack.track soup = Ok track ->
  track_name track = None /\
  exists rack,
    find "jackrack" soup = Some rack /\
    Forall2 (fun x p =>
               exists uid vs en,
                 p = LadspaPlugin uid vs en None /\
                 length vs = length (find_all "controlrow" x) /\
                 (en = true <->
                  exists e, find "enabled" x = Some e /\ get_string e = Some "true"))
            (find_all "plugin" rack) (plugins track).
Proof.
  intros H. unfold JackRack.track in H.
  apply bind_Ok in H as (rack & Hrack & H).
  apply bind_Ok in H as (ch & _ & H).
  apply bind_Ok in H as (n & _ & H).
  apply bind_Ok in H as (rt & _ & H).
  apply bind_Ok in H as (sr & _ & H).
  apply bind_Ok in H as (ps & Hps & H).
  injection H as <-. split; [reflexivity|].
  destruct (find "jackrack" soup) as [r|]; [|discriminate].
  injection Hrack as ->. exists rack. split; [reflexivity|]. cbn [plugins].
  apply mapM_Ok in Hps. eapply Forall2_impl; [exact Hps|].
  intros x p Hp. cbv beta in Hp. unfold JackRack.parse_ladspa in Hp.
  apply bind_Ok in Hp as (en & Hen & Hp).
  apply bind_Ok in Hp as (id & _ & Hp).
  apply bind_Ok in Hp as (uid & _ & Hp).
  apply bind_Ok in Hp as (vs & Hvs & Hp).
  injection Hp as <-. eexists _, _, _. split; [reflexivity|]. split.
  - apply mapM_Ok, Forall2_length in Hvs. symmetry; exact Hvs.
  - destruct (find "enabled" x) as [e|]; [|discriminate].
    injection Hen as ->. rewrite bool_decide_eq_true. split.
    + intros He. exists en. split; [reflexivity | exact He].
    + intros (e & [= <-] & He). exact He.
Qed.

Lemma jackrack_track_witness :
  exists rack,
    find "jackrack" Examples.rack = Some rack /\
    Forall2 (fun x p =>
               exists uid vs en,
                 p = LadspaPlugin uid vs en None /\
                 length vs = length (find_all "controlrow" x) /\
                 (en = true <->
                  exists e, find "enabled" x = Some e /\ get_string e = Some "true"))
            (find_all "plugin" rack)
            [LadspaPlugin 3 [Some "0.2"; Some "0.8"] true None].
Proof.
  apply (proj2 (jackrack_track Examples.rack
                  (mkTrack [LadspaPlugin 3 [Some "0.2"; Some "0.8"] true None]
                           2 44100 None)
                  ltac:(vm_compute; reflexivity))).
Defined.

(** ** The plugins and tracks of Ardour sessions *)

Lemma port_values_spec ports vs :
  Ardour2Session.port_values ports = Ok vs ->
  vs = values_of ports /\ Forall is_Some vs.
Proof.
  unfold Ardour2Session.port_values. intros H. apply mapM_Ok in H.
  induction H as [|p v ports vs Hp _ [IH1 IH2]]; [split; constructor|].
  apply fmap_Ok in Hp as (val & Hval & ->). apply get_Ok in Hval.
  split.
  - cbn [values_of map]. rewrite Hval. f_equal. exact IH1.
  - constructor; [eexists; reflexivity | exact IH2].
Qed.

(** X6.  A plugin of an Ardour 2 insert has a name, and its values are the
    [value] attributes of the [port] elements below the [ladspa] or [lv2]
    element of the insert, one value per port, in document order, all of
    them strings; a LADSPA plugin has the number that its [unique-id]
    attribute reads as, an LV2 plugin that attribute unchanged. *)
Theorem ardour2_plugin (insert : Bs4.node) (plugin : Plugin) :
  (Ardour2Session.parse_ladspa insert = Ok plugin ->
   exists ladspa uid id en nm,
     find "ladspa" insert = Some ladspa /\
     attrs_of insert !! "unique-id" = Some uid /\ int_of_str uid = Ok id /\
     plugin = LadspaPlugin id (values_of (find_all "port" ladspa)) en (Some nm) /\
     Forall is_Some (values plugin)) /\
  (Ardour2Session.parse_lv2 insert = Ok plugin ->
   exists lv2 uri en nm,
     find "lv2" insert = Some lv2 /\
     attrs_of insert !! "unique-id" = Some uri /\
     plugin = LV2Plugin uri (values_of (find_all "port" lv2)) en (Some nm) /\
     Forall is_Some (values plugin)).
Proof.
  split; intros H.
  - unfold Ardour2Session.parse_ladspa in H.
    apply bind_Ok in H as (redirect & _ & H).
    apply bind_Ok in H as (active & _ & H).
    apply bind_Ok in H as (io & _ & H).
    apply bind_Ok in H as (nm & _ & H).
    apply bind_Ok in H as (uid & Huid & H).
    apply bind_Ok in H as (id & Hid & H).
    apply bind_Ok in H as (ladspa & Hl & H).
    apply bind_Ok in H as (vs & Hvs & H).
    injection H as <-. apply port_values_spec in Hvs as [-> Hsome].
    apply get_Ok in Huid.
    destruct (find "ladspa" insert) as [l|]; [|discriminate]. injection Hl as ->.
    eexists _, _, _, _, _. repeat split; eauto.
  - unfold Ardour2Session.parse_lv2 in H.
    apply bind_Ok in H as (redirect & _ & H).
    apply bind_Ok in H as (active & _ & H).
    apply bind_Ok in H as (io & _ & H).
    apply bind_Ok in H as (nm & _ & H).
    apply bind_Ok in H as (uri & Huri & H).
    apply bind_Ok in H as (lv2 & Hl & H).
    apply bind_Ok in H as (vs & Hvs & H).
    injection H as <-. apply port_values_spec in Hvs as [-> Hsome].
    apply get_Ok in Huri.
    destruct (find "lv2" insert) as [l|]; [|discriminate]. injection Hl as ->.
    eexists _, _, _, _. repeat split; eauto.
Qed.

Lemma ardour2_plugin_witness :
  (exists ladspa uid id en nm,
     find "ladspa" (Examples.insert "ladspa" "11" "yes" "PreFader" "Gate" "1e-3")
       = Some ladspa /\
     attrs_of (Examples.insert "ladspa" "11" "yes" "PreFader" "Gate" "1e-3")
       !! "unique-id" = Some uid /\
     int_of_str uid = Ok id /\
     LadspaPlugin 11 [Some "1e-3"] true (Some "Gate")
       = LadspaPlugin id (values_of (find_all "port" ladspa)) en (Some nm) /\
     Forall is_Some (values (LadspaPlugin 11 [Some "1e-3"] true (Some "Gate")))) /\
  (exists lv2 uri en nm,
     find "lv2" (Examples.insert "lv2" "urn:eq" "no" "PreFader" "EQ" "2") = Some lv2 /\
     attrs_of (Examples.insert "lv2" "urn:eq" "no" "PreFader" "EQ" "2")
       !! "unique-id" = Some uri /\
     LV2Plugin "urn:eq" [Some "2"] false (Some "EQ")
       = LV2Plugin uri (values_of (find_all "port" lv2)) en (Some nm) /\
     Forall is_Some (values (LV2Plugin "urn:eq" [Some "2"] false (Some "EQ")))).
Proof.
  split.
  - apply (proj1 (ardour2_plugin
                    (Examples.insert "ladspa" "11" "yes" "PreFader" "Gate" "1e-3")
                    (LadspaPlugin 11 [Some "1e-3"] true (Some "Gate")))).
    vm_compute; reflexivity.
  - apply (proj2 (ardour2_plugin
                    (Examples.insert "lv2" "urn:eq" "no" "PreFader" "EQ" "2")
                    (LV2Plugin "urn:eq" [Some "2"] false (Some "EQ")))).
    vm_compute; reflexivity.
Defined.

Lemma parse_route2_header soup route t :
  Ardour2Session.parse_route soup route = Ok t ->
  is_Some (track_name t) /\
  (exists session rate,
     find "Session" soup = Some session /\
     attrs_of session !! "sample-rate" = Some rate /\
     int_of_str rate = Ok (samplerate t)) /\
  string_values t.
Proof.
  intros H. unfold Ardour2Session.parse_route in H.
  apply bind_Ok in H as (io & _ & H).
  apply bind_Ok in H as (nch & _ & H).
  apply bind_Ok in H as (session & Hs & H).
  apply bind_Ok in H as (rate & Hr & H).
  apply bind_Ok in H as (sr & Hsr & H).
  apply bind_Ok in H as (nm & _ & H).
  apply bind_Ok in H as ([pre post] & Hscan & H).
  injection H as <-. split; [eexists; reflexivity|]. split.
  - destruct (find "Session" soup) as [s'|]; [|discriminate]. injection Hs as ->.
    apply get_Ok in Hr. eauto.
  - apply scan_inserts_spec in Hscan as (pre' & post' & -> & -> & Hpre & Hpost).
    unfold string_values. cbn [plugins app].
    assert (Hall : forall l ps,
               Forall2 (fun i p => unit_of i = Ok p) l ps ->
               Forall (fun p => Forall is_Some (values p)) ps).
    { intros l ps HF. induction HF as [|i p l ps Hp _ IH]; constructor; [|exact IH].
      unfold unit_of in Hp. destruct (bool_decide _).
      - unfold Ardour2Session.parse_ladspa in Hp.
        repeat (apply bind_Ok in Hp as (? & ? & Hp)).
        injection Hp as <-. cbn [values].
        match goal with Hv : Ardour2Session.port_values _ = Ok _ |- _ =>
          apply port_values_spec in Hv as [_ Hv]; exact Hv end.
      - unfold Ardour2Session.parse_lv2 in Hp.
        repeat (apply bind_Ok in Hp as (? & ? & Hp)).
        injection Hp as <-. cbn [values].
        match goal with Hv : Ardour2Session.port_values _ = Ok _ |- _ =>
          apply port_values_spec in Hv as [_ Hv]; exact Hv end. }
    apply Forall_app. split; eapply Hall; eassumption.
Qed.

Lemma port_values3_spec ports vs :
  Ardour3Session.port_values ports = Ok vs -> Forall is_Some vs.
Proof.
  unfold Ardour3Session.port_values. intros H. apply mapM_Ok in H.
  induction H as [|p v ports vs Hp _ IH]; constructor; [|exact IH].
  apply fmap_Ok in Hp as (val & _ & ->). eexists; reflexivity.
Qed.

Lemma parse_route3_header soup route t :
  Ardour3Session.parse_route soup route = Ok t ->
  is_Some (track_name t) /\
  (exists session rate,
     find "Session" soup = Some session /\
     attrs_of session !! "sample-rate" = Some rate /\
     int_of_str rate = Ok (samplerate t)) /\
  string_values t.
Proof.
  intros H. unfold Ardour3Session.parse_route in H.
  apply bind_Ok in H as (input & _ & H).
  apply bind_Ok in H as (session & Hs & H).
  apply bind_Ok in H as (rate & Hr & H).
  apply bind_Ok in H as (sr & Hsr & H).
  apply bind_Ok in H as (io & _ & H).
  apply bind_Ok in H as (nm & _ & H).
  apply bind_Ok in H as (ps & Hscan & H).
  injection H as <-. split; [eexists; reflexivity|]. split.
  - destruct (find "Session" soup) as [s'|]; [|discriminate]. injection Hs as ->.
    apply get_Ok in Hr. eauto.
  - apply scan_processors_spec in Hscan as (new & -> & Hnew).
    unfold string_values. cbn [plugins app].
    induction Hnew as [|i p l ps' Hp _ IH]; constructor; [|exact IH].
    unfold unit3_of in Hp. destruct (bool_decide _).
    + unfold Ardour3Session.parse_ladspa in Hp.
      repeat (apply bind_Ok in Hp as (? & ? & Hp)).
      injection Hp as <-. cbn [values].
      match goal with Hv : Ardour3Session.port_values _ = Ok _ |- _ =>
        apply port_values3_spec in Hv; exact Hv end.
    + unfold Ardour3Session.parse_lv2 in Hp.
      repeat (apply bind_Ok in Hp as (? & ? & Hp)).
      injection Hp as <-. cbn [values].
      match goal with Hv : Ardour3Session.port_values _ = Ok _ |- _ =>
        apply port_values3_spec in Hv; exact Hv end.
Qed.

Lemma session_tracks_spec (parse : Bs4.node -> Bs4.node -> result Track) soup ts :
  (forall route t, parse soup route = Ok t ->
     is_Some (track_name t) /\
     (exists session rate,
        find "Session" soup = Some session /\
        attrs_of session !! "sample-rate" = Some rate /\
        int_of_str rate = Ok (samplerate t)) /\
     string_values t) ->
  (session ← attr_of (find "Session" soup);
   routes ← attr_of (find "Routes" session);
   mapM (parse soup) (find_all "Route" routes)) = Ok ts ->
  (exists session routes,
     find "Session" soup = Some session /\ find "Routes" session = Some routes /\
     length ts = length (find_all "Route" routes)) /\
  Forall (fun t => is_Some (track_name t)) ts /\
  (exists rate, Forall (fun t => samplerate t = rate) ts) /\
  Forall string_values ts.
Proof.
  intros Hparse H.
  apply bind_Ok in H as (session & Hs & H).
  apply bind_Ok in H as (routes & Hr & H).
  apply mapM_Ok in H.
  destruct (find "Session" soup) as [s'|] eqn:Hfs; [|discriminate]. injection Hs as ->.
  destruct (find "Routes" session) as [r'|] eqn:Hfr; [|discriminate]. injection Hr as ->.
  split; [|split; [|split]].
  - exists session, routes.
    split; [reflexivity | split; [exact Hfr|]].
    symmetry. exact (Forall2_length _ _ _ H).
  - induction H as [|r t rs ts' Hp _ IH]; constructor; [|exact IH].
    apply Hparse in Hp as [Hn _]. exact Hn.
  - destruct (attrs_of session !! "sample-rate") as [rate|] eqn:Hrate.
    + destruct (int_of_str rate) as [n|e] eqn:Hn.
      * exists n. induction H as [|r t rs ts' Hp _ IH]; constructor; [|exact IH].
        apply Hparse in Hp as (_ & (s2 & rate2 & Hs2 & Hr2 & Hi2) & _).
        injection Hs2 as <-.
        rewrite Hrate in Hr2. injection Hr2 as <-. congruence.
      * exists 0. induction H as [|r t rs ts' Hp _ IH]; constructor; [|exact IH].
        apply Hparse in Hp as (_ & (s2 & rate2 & Hs2 & Hr2 & Hi2) & _).
        injection Hs2 as <-.
        rewrite Hrate in Hr2. injection Hr2 as <-. congruence.
    + exists 0. induction H as [|r t rs ts' Hp _ IH]; constructor; [|exact IH].
      apply Hparse in Hp as (_ & (s2 & rate2 & Hs2 & Hr2 & Hi2) & _).
      injection Hs2 as <-. congruence.
  - induction H as [|r t rs ts' Hp _ IH]; constructor; [|exact IH].
    apply Hparse in Hp as (_ & _ & Hv). exact Hv.
Qed.

(** X7.  The tracks of an Ardour session, of either version: there is one
    track per [Route] element below the [Routes] element of the session,
    every track has a name, all tracks have the same sample rate, and
    every value of every plugin is a string. *)
Theorem ardour_tracks (soup : Bs4.node) (ts : list Track) :
  Ardour2Session.tracks soup = Ok ts \/ Ardour3Session.tracks soup = Ok ts ->
  (exists session routes,
     find "Session" soup = Some session /\ find "Routes" session = Some routes /\
     length ts = length (find_all "Route" routes)) /\
  Forall (fun t => is_Some (track_name t)) ts /\
  (exists rate, Forall (fun t => samplerate t = rate) ts) /\
  Forall string_values ts.
Proof.
  intros [H | H].
  - exact (session_tracks_spec Ardour2Session.parse_route soup ts
             (parse_route2_header soup) H).
  - exact (session_tracks_spec Ardour3Session.parse_route soup ts
             (parse_route3_header soup) H).
Qed.

Lemma ardour_tracks_witness :
  (exists session routes,
     find "Session" Examples.session = Some session /\
     find "Routes" session = Some routes /\
     length Examples.session_tracks = length (find_all "Route" routes)) /\
  Forall (fun t => is_Some (track_name t)) Examples.session_tracks /\
  (exists rate, Forall (fun t => samplerate t = rate) Examples.session_tracks) /\
  Forall string_values Examples.session_tracks.
Proof.
  apply (ardour_tracks Examples.session Examples.session_tracks).
  left. vm_compute; reflexivity.
Defined.

Lemma format_value_Some_Raise self s e :
  format_value self (Some s) = Raise e -> e = ValueError \/ e = OverflowError.
Proof.
  unfold format_value. cbn [float_of]. intros H.
  apply bind_Raise in H as [H | (x & _ & H)];
    [left; exact (float_of_str_Raise _ _ H)|].
  apply bind_Raise in H as [H | (y & _ & H)];
    [left; exact (float_of_str_Raise _ _ H)|].
  apply bind_Raise in H as [H | (n & _ & H)].
  { destruct y; simpl in H; try discriminate; injection H as <-; auto. }
  apply bind_Raise in H as [H | (z & _ & H)].
  - unfold float_of_int in H.
    destruct (binary_normalize _ _ _ _ _); try discriminate.
    injection H as <-; auto.
  - destruct (float_eq z x); discriminate.
Qed.

Lemma format_session_Raise self ts e :
  format_session self ts = Raise e ->
  exists t, t ∈ ts /\
    ((track_name t = None /\ e = TypeError) \/ format_track self t = Raise e).
Proof.
  unfold format_session. intros H.
  apply bind_Raise in H as [H | (b & _ & H)]; [|discriminate].
  apply mapM_Raise in H as (t & Hin & H). exists t. split; [exact Hin|].
  unfold format_block in H.
  apply bind_Raise in H as [H | (len & _ & H)].
  - left. destruct (track_name t); [discriminate|]. injection H as <-. auto.
  - apply bind_Raise in H as [H | (body & _ & H)]; [right; exact H | discriminate].
Qed.

(** X8.  Formatting the tracks of an Ardour session raises nothing but the
    exit for an index out of range, [ValueError] and [OverflowError]: there
    is no [TypeError], as every track has a name and every value is a
    string, and no [IndexError]. *)
Theorem ardour_session_exceptions (self : EcasoundOutput.t) (soup : Bs4.node)
    (ts : list Track) (e : exn) :
  Ardour2Session.tracks soup = Ok ts \/ Ardour3Session.tracks soup = Ok ts ->
  format_session self ts = Raise e ->
  (exists msg, e = SystemExit msg) \/ e = ValueError \/ e = OverflowError.
Proof.
  intros Hts H.
  assert (Hspec : Forall (fun t => is_Some (track_name t)) ts /\
                  Forall string_values ts).
  { destruct Hts as [Hts | Hts].
    - destruct (session_tracks_spec Ardour2Session.parse_route soup ts
                  (parse_route2_header soup) Hts) as (_ & Hn & _ & Hv). auto.
    - destruct (session_tracks_spec Ardour3Session.parse_route soup ts
                  (parse_route3_header soup) Hts) as (_ & Hn & _ & Hv). auto. }
  destruct Hspec as [Hn Hv]. rewrite Forall_forall in Hn, Hv.
  apply format_session_Raise in H as (t & Hin & [[Hnone _] | H]).
  - destruct (Hn t Hin) as [n Hsome]. congruence.
  - apply format_track_Raise in H as [H | (i & p & v & Hp & Hvin & H)];
      [left; exact H | right].
    specialize (Hv t Hin). unfold string_values in Hv.
    rewrite Forall_forall in Hv.
    assert (Hpin : p ∈ plugins t) by (eapply list_elem_of_lookup_2; exact Hp).
    specialize (Hv p Hpin). rewrite Forall_forall in Hv.
    destruct (Hv v Hvin) as [s ->].
    exact (format_value_Some_Raise _ _ _ H).
Qed.

Lemma ardour_session_exceptions_witness :
  (exists msg, ValueError = SystemExit msg) \/
  ValueError = ValueError \/ ValueError = OverflowError.
Proof.
  apply (ardour_session_exceptions
           (mk false "ecasound" false false [] [] true)
           (Examples.elem "[document]" []
              [Examples.elem "Session" [("version", "2.8.16"); ("sample-rate", "48000")]
                 [Examples.elem "Routes" []
                    [Examples.elem "Route" []
                       [Examples.elem "IO" [("name", "Drums"); ("inputs", "{in}")] [];
                        Examples.insert "ladspa" "5" "yes" "PreFader" "Comp" "loud"]]]])
           [mkTrack [LadspaPlugin 5 [Some "loud"] true (Some "Comp")]
                    1 48000 (Some "Drums")]
           ValueError).
  - left. vm_compute; reflexivity.
  - vm_compute; reflexivity.
Defined.

(** ** The main program *)

Lemma no_exit_attr_of {A} (o : option A) : no_exit (attr_of o).
Proof. destruct o; intros msg; discriminate. Qed.

Lemma no_exit_subscriptable {A} (o : option A) : no_exit (subscriptable o).
Proof. destruct o; intros msg; discriminate. Qed.

Lemma no_exit_get key t : no_exit (get key t).
Proof. unfold get. destruct (_ !! _); intros msg; discriminate. Qed.

Lemma no_exit_int_of_str s : no_exit (int_of_str s).
Proof.
  unfold int_of_str. destruct (sign _) as [neg s1].
  destruct (digits s1) as [[n [|c]] [|? ?]]; intros msg; discriminate.
Qed.

Lemma no_exit_int_of v : no_exit (int_of v).
Proof. destruct v; [apply no_exit_int_of_str | intros msg; discriminate]. Qed.

Lemma no_exit_fmap {A B} (f : A -> B) (m : result A) : no_exit m -> no_exit (f <$> m).
Proof. destruct m; intros H msg; [discriminate|]. intros [= ->]. exact (H msg eq_refl). Qed.

Ltac no_exit_step :=
  first
    [ apply no_exit_Ok
    | apply no_exit_attr_of
    | apply no_exit_subscriptable
    | apply no_exit_get
    | apply no_exit_int_of_str
    | apply no_exit_int_of
    | apply no_exit_fmap
    | apply no_exit_mapM; intros ?
    | apply no_exit_bind; [|intros ? _]
    | match goal with
      | |- no_exit (if ?b then _ else _) => destruct b
      | |- no_exit (let '(_, _) := ?x in _) => destruct x
      end ].

Lemma no_exit_parse2 soup route : no_exit (Ardour2Session.parse_route soup route).
Proof.
  assert (Hl : forall i, no_exit (Ardour2Session.parse_ladspa i)).
  { intros i. unfold Ardour2Session.parse_ladspa, Ardour2Session.port_values.
    repeat no_exit_step. }
  assert (Hv : forall i, no_exit (Ardour2Session.parse_lv2 i)).
  { intros i. unfold Ardour2Session.parse_lv2, Ardour2Session.port_values.
    repeat no_exit_step. }
  assert (Hs : forall l pre post, no_exit (Ardour2Session.scan_inserts l pre post)).
  { induction l as [|i l IH]; intros pre post; cbn [Ardour2Session.scan_inserts].
    - apply no_exit_Ok.
    - repeat first [ apply IH | apply Hl | apply Hv | no_exit_step ]. }
  unfold Ardour2Session.parse_route.
  repeat first [ apply Hs | no_exit_step ].
Qed.

Lemma no_exit_parse3 soup route : no_exit (Ardour3Session.parse_route soup route).
Proof.
  assert (Hl : forall i, no_exit (Ardour3Session.parse_ladspa i)).
  { intros i. unfold Ardour3Session.parse_ladspa, Ardour3Session.port_values.
    repeat no_exit_step. }
  assert (Hv : forall i, no_exit (Ardour3Session.parse_lv2 i)).
  { intros i. unfold Ardour3Session.parse_lv2, Ardour3Session.port_values.
    repeat no_exit_step. }
  assert (Hs : forall l acc, no_exit (Ardour3Session.scan_processors l acc)).
  { induction l as [|i l IH]; intros acc; cbn [Ardour3Session.scan_processors].
    - apply no_exit_Ok.
    - repeat first [ apply IH | apply Hl | apply Hv | no_exit_step ]. }
  unfold Ardour3Session.parse_route.
  repeat first [ apply Hs | no_exit_step ].
Qed.

Lemma no_exit_session_tracks soup : no_exit (Main.session_tracks soup).
Proof.
  unfold Main.session_tracks, Ardour2Session.tracks, Ardour3Session.tracks.
  repeat first [ apply no_exit_parse2 | apply no_exit_parse3 | no_exit_step ].
Qed.

Lemma no_exit_jackrack soup : no_exit (JackRack.track soup).
Proof.
  unfold JackRack.track, JackRack.parse_ladspa. repeat no_exit_step.
Qed.

Lemma no_exit_format_track_all self track :
  include_indices self = [] -> exclude_indices self = [] ->
  no_exit (format_track self track).
Proof.
  intros Hi He. unfold format_track. rewrite Hi, He. cbn [app check_indices].
  apply no_exit_bind; [apply no_exit_Ok | intros _ _].
  apply no_exit_bind; [apply collect_no_exit | intros sel _].
  apply no_exit_bind;
    [apply no_exit_mapM; intros; apply format_plugin_no_exit | intros r _].
  destruct (chain_setup self); apply no_exit_Ok.
Qed.

Lemma no_exit_format_session_all self ts :
  include_indices self = [] -> exclude_indices self = [] ->
  no_exit (format_session self ts).
Proof.
  intros Hi He. unfold format_session.
  apply no_exit_bind; [|intros; apply no_exit_Ok].
  apply no_exit_mapM. intros t. unfold format_block.
  apply no_exit_bind; [destruct (track_name t); intros msg; discriminate | intros n _].
  apply no_exit_bind; [apply no_exit_format_track_all; assumption | intros b _].
  apply no_exit_Ok.
Qed.

(** X9.  An inclusion list and an exclusion list together are refused
    before anything is parsed or formatted: for every document the run
    ends with one of the three messages that precede the parsing. *)
Theorem run_inclusion_and_exclusion (args : Main.Args) (soup : Bs4.node) :
  Main.include_indices args <> [] -> Main.exclude_indices args <> [] ->
  Main.run args soup
    = Raise (SystemExit "error: input file format not recognized") \/
  Main.run args soup
    = Raise (SystemExit
        "error: ecasound chain setup can only be generated for a single track") \/
  Main.run args soup
    = Raise (SystemExit
        "error: can't specify plugin inclusion and exclusion at the same time").
Proof.
  intros Hi He. unfold Main.run.
  destruct (Main.sniff args soup) as [[fmt st]|e] eqn:Hsniff.
  - cbn [mbind result_bind]. unfold Main.check_args.
    destruct (Main.chain_setup args && negb st); [right; left; reflexivity|].
    destruct (Main.include_indices args); [congruence|].
    destruct (Main.exclude_indices args); [congruence|].
    right; right; reflexivity.
  - left. unfold Main.sniff in Hsniff.
    destruct (find_child "Session" soup); [discriminate|].
    destruct (find_child "jackrack" soup); [discriminate|].
    injection Hsniff as <-. reflexivity.
Qed.

Lemma run_inclusion_and_exclusion_witness :
  Main.run (Main.mkArgs "rack.gz" None false false None [0] [1] false) Examples.rack
  = Raise (SystemExit
      "error: can't specify plugin inclusion and exclusion at the same time").
Proof.
  destruct (run_inclusion_and_exclusion
              (Main.mkArgs "rack.gz" None false false None [0] [1] false)
              Examples.rack ltac:(discriminate) ltac:(discriminate))
    as [H | [H | H]]; [vm_compute in H; discriminate H
                      | vm_compute in H; discriminate H | exact H].
Defined.

(** X10.  The export of a whole Ardour session, without a track name,
    ends the run exactly when chain setup or plugin indices are asked for;
    whatever the parsing or the formatting raises otherwise is not an
    exit. *)
Theorem run_whole_session_exit (args : Main.Args) (soup : Bs4.node) :
  is_Some (find_child "Session" soup) ->
  Main.truthy (Main.track_name args) = false ->
  (is_exit (Main.run args soup) <->
   Main.chain_setup args = true \/ Main.include_indices args <> [] \/
   Main.exclude_indices args <> []).
Proof.
  intros [session Hs] Htn. unfold Main.run, Main.sniff. rewrite Hs, Htn.
  cbn [mbind result_bind]. unfold Main.check_args. cbn [negb]. rewrite andb_true_r.
  destruct (Main.chain_setup args) eqn:Hc.
  { split; [auto | intros _; eexists; reflexivity]. }
  destruct (Main.include_indices args) as [|i li] eqn:Hi;
    destruct (Main.exclude_indices args) as [|x lx] eqn:Hx; cbn [Main.nonempty andb orb].
  2-4: split; [intros _; right; first [left; discriminate | right; discriminate]
              | intros _; eexists; reflexivity].
  split; [|intros [? | [? | ?]]; congruence].
  intros [msg H]. exfalso. revert msg H. cbn [mbind result_bind].
  apply no_exit_bind; [apply no_exit_session_tracks | intros ts _].
  assert (Hfs : no_exit (format_session (Main.output args) ts)).
  { apply no_exit_format_session_all; unfold Main.output; cbn; assumption. }
  destruct (Main.track_name args) as [[|c nm]|]; try exact Hfs. discriminate.
Qed.

Lemma run_whole_session_exit_witness :
  is_exit (Main.run (Main.mkArgs "s.ardour" (Some [None]) false false None [] [] false)
                    Examples.session) <->
  Main.chain_setup (Main.mkArgs "s.ardour" (Some [None]) false false None [] [] false)
    = true \/
  Main.include_indices
    (Main.mkArgs "s.ardour" (Some [None]) false false None [] [] false) <> [] \/
  Main.exclude_indices
    (Main.mkArgs "s.ardour" (Some [None]) false false None [] [] false) <> [].
Proof.
  apply (run_whole_session_exit
           (Main.mkArgs "s.ardour" (Some [None]) false false None [] [] false)
           Examples.session).
  - eexists. vm_compute. reflexivity.
  - reflexivity.
Defined.

Lemma first_named_none nm ts :
  Forall (fun t => track_name t <> Some nm) ts -> Main.first_named nm ts = None.
Proof.
  unfold Main.first_named. induction 1 as [|t ts Ht _ IH]; [reflexivity|].
  cbn [List.find]. rewrite bool_decide_eq_false_2 by exact Ht. exact IH.
Qed.

Lemma first_named_first nm before t after :
  Forall (fun t' => track_name t' <> Some nm) before -> track_name t = Some nm ->
  Main.first_named nm (before ++ t :: after) = Some t.
Proof.
  unfold Main.first_named. induction 1 as [|t' ts Ht _ IH]; intros Hn.
  - cbn [app List.find]. rewrite bool_decide_eq_true_2 by exact Hn. reflexivity.
  - cbn [app List.find]. rewrite bool_decide_eq_false_2 by exact Ht. exact (IH Hn).
Qed.

(** X11.  The export of a named track of an Ardour session: when no track
    of the session has the name, the run ends with a message that quotes
    the name; otherwise the first track of that name, in document order, is
    the one that is formatted, also when later tracks share the name. *)
Theorem run_named_track (args : Main.Args) (soup : Bs4.node)
    (c : ascii) (nm : string) (ts : list Track) :
  is_Some (find_child "Session" soup) ->
  Main.track_name args = Some (String c nm) ->
  Main.include_indices args = [] \/ Main.exclude_indices args = [] ->
  Main.session_tracks soup = Ok ts ->
  (Forall (fun t => track_name t <> Some (String c nm)) ts ->
   Main.run args soup
     = Raise (SystemExit ("error: no track named '" +:+ String c nm +:+ "'"))) /\
  (forall before t after,
     ts = (before ++ t :: after)%list ->
     Forall (fun t' => track_name t' <> Some (String c nm)) before ->
     track_name t = Some (String c nm) ->
     Main.run args soup = format_track (Main.output args) t).
Proof.
  intros [session Hs] Htn Hlists Hts.
  assert (Hrun : Main.run args soup
                 = match Main.first_named (String c nm) ts with
                   | Some t => format_track (Main.output args) t
                   | None => Raise (SystemExit
                               ("error: no track named '" +:+ String c nm +:+ "'"))
                   end).
  { unfold Main.run, Main.sniff. rewrite Hs, Htn. cbn [Main.truthy mbind result_bind].
    unfold Main.check_args. cbn [negb]. rewrite !andb_false_r.
    destruct Hlists as [-> | ->]; cbn [Main.nonempty andb];
      rewrite ?andb_false_r; cbn [mbind result_bind]; rewrite Hts; reflexivity. }
  split.
  - intros Hnone. rewrite Hrun, (first_named_none _ _ Hnone). reflexivity.
  - intros before t after -> Hb Ht.
    rewrite Hrun, (first_named_first _ _ _ _ Hb Ht). reflexivity.
Qed.

Lemma run_named_track_witness :
  Main.run (Main.mkArgs "s.ardour" None false false (Some "Bus") [] [] false)
           Examples.session
  = format_track
      (Main.output (Main.mkArgs "s.ardour" None false false (Some "Bus") [] [] false))
      (mkTrack [] 2 48000 (Some "Bus")).
Proof.
  apply (proj2 (run_named_track
                  (Main.mkArgs "s.ardour" None false false (Some "Bus") [] [] false)
                  Examples.session "B" "us" Examples.session_tracks
                  ltac:(eexists; vm_compute; reflexivity) eq_refl
                  (or_introl eq_refl) ltac:(vm_compute; reflexivity))
               [mkTrack [LV2Plugin "urn:eq" [Some "2"] false (Some "EQ");
                         LadspaPlugin 11 [Some "1e-3"] true (Some "Gate");
                         LadspaPlugin 10 [Some "0.9"] true (Some "Limiter")]
                        2 48000 (Some "Audio 1")]
               (mkTrack [] 2 48000 (Some "Bus")) []).
  - reflexivity.
  - repeat constructor. discriminate.
  - reflexivity.
Defined.

(** X12.  Which options have no effect on what is made of a document:
    with single-line output the options for descriptions and for disabled
    plugins have none; and for a document without a top-level [Session]
    element, a JACK Rack file, the track name has none. *)
Theorem run_ignored_options (soup : Bs4.node)
    (f : string) (cs : option (list (option string))) (sl nd nd' : bool)
    (tn tn' : option string) (inc exc : list Z) (dis dis' : bool) :
  sl = true \/ (nd = nd' /\ dis = dis') ->
  find_child "Session" soup = None \/ tn = tn' ->
  Main.run (Main.mkArgs f cs sl nd tn inc exc dis) soup
  = Main.run (Main.mkArgs f cs sl nd' tn' inc exc dis') soup.
Proof.
  intros Hsl Htn.
  assert (Hout : Main.output (Main.mkArgs f cs sl nd tn inc exc dis)
                 = Main.output (Main.mkArgs f cs sl nd' tn' inc exc dis')).
  { unfold Main.output. cbn.
    destruct Hsl as [-> | [-> ->]]; reflexivity. }
  unfold Main.run. rewrite Hout.
  destruct Htn as [Hs | ->]; [|reflexivity].
  unfold Main.sniff. rewrite Hs.
  destruct (find_child "jackrack" soup); reflexivity.
Qed.

Lemma run_ignored_options_witness :
  Main.run (Main.mkArgs "rack.gz" None true false (Some "Bus") [] [] true) Examples.rack
  = Main.run (Main.mkArgs "rack.gz" None true true None [] [] false) Examples.rack.
Proof.
  apply (run_ignored_options Examples.rack "rack.gz" None true false true
           (Some "Bus") None [] [] true false).
  - left; reflexivity.
  - left. vm_compute; reflexivity.
Defined.

Lemma index_message_differs (i : Z) :
  "error: plugin index " +:+ str_int i +:+ " is out of range"
  <> "error: input file format not recognized".
Proof. lazy beta iota delta [String.append]. discriminate. Qed.

Lemma format_track_recognized self t :
  format_track self t
  <> Raise (SystemExit "error: input file format not recognized").
Proof.
  intros H. apply format_track_exit_first in H as (_ & i & _ & _ & _ & _ & H).
  symmetry in H. exact (index_message_differs i H).
Qed.

Lemma check_args_recognized args st :
  Main.check_args args st
  <> Raise (SystemExit "error: input file format not recognized").
Proof.
  unfold Main.check_args.
  repeat match goal with |- context [if ?b then _ else _] => destruct b end;
    discriminate.
Qed.

(** X13.  The run ends with the message that the input file format is not
    recognized exactly when the document has neither a top-level [Session]
    element nor a top-level [jackrack] element: no other exit of the
    program, and no exception, is mistaken for it. *)
Theorem run_not_recognized (args : Main.Args) (soup : Bs4.node) :
  Main.run args soup
    = Raise (SystemExit "error: input file format not recognized") <->
  find_child "Session" soup = None /\ find_child "jackrack" soup = None.
Proof.
  split.
  2:{ intros [Hs Hj]. unfold Main.run, Main.sniff. rewrite Hs, Hj. reflexivity. }
  intros H. unfold Main.run, Main.sniff in H.
  destruct (find_child "Session" soup) as [session|].
  - exfalso. cbn [mbind result_bind] in H.
    apply bind_Raise in H as [H | ([] & _ & H)];
      [exact (check_args_recognized _ _ H)|].
    apply bind_Raise in H as [H | (ts & _ & H)];
      [exact (no_exit_session_tracks soup _ H)|].
    assert (Hfs : format_session (Main.output args) ts
                  <> Raise (SystemExit "error: input file format not recognized")).
    { intros Hfs. apply format_session_Raise in Hfs as (t & _ & [[_ Hfs] | Hfs]);
        [discriminate | exact (format_track_recognized _ _ Hfs)]. }
    destruct (Main.track_name args) as [[|c nm]|]; try exact (Hfs H).
    destruct (Main.first_named (String c nm) ts) as [t|].
    + exact (format_track_recognized _ _ H).
    + revert H. lazy beta iota delta [String.append]. discriminate.
  - destruct (find_child "jackrack" soup) as [rack|]; [exfalso | split; reflexivity].
    cbn [mbind result_bind] in H.
    apply bind_Raise in H as [H | ([] & _ & H)];
      [exact (check_args_recognized _ _ H)|].
    apply bind_Raise in H as [H | (t & _ & H)];
      [exact (no_exit_jackrack soup _ H) | exact (format_track_recognized _ _ H)].
Qed.

(** ** Single-line output *)

Lemma kept_from self track (pre rest : list Plugin) :
  plugins track = (pre ++ rest)%list ->
  map snd (kept self track (map Z.of_nat (seq (length pre) (length rest))))
  = List.filter (fun p => enabled p || include_disabled self) rest.
Proof.
  revert pre. induction rest as [|p rest IH]; intros pre Hpl; [reflexivity|].
  assert (Hlk : plugins track !! length pre = Some p).
  { rewrite Hpl. apply list_lookup_middle. reflexivity. }
  cbn [length seq map]. unfold kept. cbn [omap list_omap].
  rewrite Nat2Z.id, Hlk.
  fold (kept self track (map Z.of_nat (seq (S (length pre)) (length rest)))).
  assert (Hrest : map snd (kept self track
                             (map Z.of_nat (seq (S (length pre)) (length rest))))
                  = List.filter (fun p => enabled p || include_disabled self) rest).
  { specialize (IH (pre ++ [p])%list). rewrite length_app in IH. cbn [length] in IH.
    rewrite Nat.add_1_r in IH. apply IH. rewrite Hpl, <- app_assoc. reflexivity. }
  cbn [List.filter]. destruct (enabled p || include_disabled self).
  - cbn [map snd]. f_equal. exact Hrest.
  - exact Hrest.
Qed.

Lemma mapM_map {A B C} (f : A -> B) (g : B -> result C) (l : list A) :
  mapM g (map f l) = mapM (fun x => g (f x)) l.
Proof.
  induction l as [|x l IH]; [reflexivity|].
  cbn [map]. rewrite !mapM_cons, IH. reflexivity.
Qed.

Lemma mapM_ext_in {A B} (f g : A -> result B) (l : list A) :
  (forall x, x ∈ l -> f x = g x) -> mapM f l = mapM g l.
Proof.
  induction l as [|x l IH]; intros H; [reflexivity|].
  rewrite !mapM_cons, (H x) by left. rewrite IH; [reflexivity|].
  intros y Hy. apply H. right; exact Hy.
Qed.

Lemma bind_mret {A} (m : result A) : (a ← m; mret a) = m.
Proof. destruct m; reflexivity. Qed.

(** X14.  Single-line output of a whole track, without index lists, is the
    commands of the enabled plugins of the track, in the order of the
    track, separated by one blank: there are no description lines and no
    disabled plugins, whatever the options for them say.  Only with chain
    setup requested does the preamble with its empty line precede them;
    single-line output alone does not request it. *)
Theorem run_single_line (args : Main.Args) (track : Track) :
  Main.single_line args = true ->
  Main.include_indices args = [] -> Main.exclude_indices args = [] ->
  format_track (Main.output args) track
  = (fun cmds =>
       (if Main.chain_setup args
        then "-f:f32," +:+ str_int (nchannels track) +:+ "," +:+
             str_int (samplerate track) +:+ " -G:jack," +:+ Main.client_name args +:+
             ",notransport -i:jack -o:jack" +:+ nl +:+ nl
        else "") +:+ join " " cmds)
    <$> mapM (fun p => format_cmdline p (format_value (Main.output args)))
             (List.filter enabled (plugins track)).
Proof.
  intros Hsl Hi He.
  rewrite (format_track_render (Main.output args) track
             (range (length (plugins track)))).
  2:{ unfold Main.output; cbn. rewrite Hi, He. constructor. }
  2:{ unfold Main.output; cbn. rewrite Hi, He. cbn.
      induction (range _) as [|i l IH]; [reflexivity|]. cbn. f_equal. exact IH. }
  unfold render.
  assert (Hmap : mapM (fun ip => format_plugin (Main.output args) ip.1 ip.2)
                      (kept (Main.output args) track (range (length (plugins track))))
                 = mapM (fun p => format_cmdline p (format_value (Main.output args)))
                        (List.filter enabled (plugins track))).
  { pose proof (kept_from (Main.output args) track [] (plugins track) eq_refl) as Hk.
    cbn [length] in Hk. fold (range (length (plugins track))) in Hk.
    assert (Hf : List.filter
                   (fun p => enabled p || include_disabled (Main.output args))
                   (plugins track)
                 = List.filter enabled (plugins track)).
    { apply filter_ext. intros q. unfold Main.output; cbn. rewrite Hsl.
      apply orb_false_r. }
    rewrite Hf in Hk. rewrite <- Hk, mapM_map.
    apply mapM_ext_in. intros [i q] Hin. cbn [fst snd].
    apply elem_of_kept in Hin as (_ & _ & Hen).
    assert (Hq : enabled q = true).
    { revert Hen. unfold Main.output; cbn. rewrite Hsl, orb_false_r. auto. }
    unfold format_plugin. rewrite Hq. unfold Main.output at 1; cbn. rewrite Hsl.
    cbn [negb]. apply bind_mret. }
  rewrite Hmap.
  destruct (mapM _ (List.filter enabled (plugins track))) as [cmds|e]; [|reflexivity].
  cbn [mbind result_bind fmap result_fmap mret result_ret].
  unfold Main.output; cbn. rewrite Hsl. unfold preamble; cbn.
  destruct (Main.chain_setup args); [|reflexivity].
  rewrite !append_assoc. reflexivity.
Qed.

Lemma run_single_line_witness :
  format_track
    (Main.output (Main.mkArgs "s" None true false None [] [] true))
    (mkTrack [Examples.B; Examples.A; LadspaPlugin 7 [] true None] 2 48000 None)
  = Ok "-eli:1,1,0.5 -eli:7,".
Proof.
  rewrite (run_single_line
             (Main.mkArgs "s" None true false None [] [] true)
             (mkTrack [Examples.B; Examples.A; LadspaPlugin 7 [] true None] 2 48000 None)
             eq_refl eq_refl eq_refl).
  vm_compute; reflexivity.
Defined.

(** ** Values that are integers *)

Lemma digits_from_acc (d : Decimal.uint) (acc : positive) (cnt : nat) :
  digits_from (Zpos acc) cnt (chars d)
  = (Zpos (Pos.of_uint_acc d acc), (cnt + Decimal.nb_digits d)%nat, []).
Proof.
  revert acc cnt. unfold chars.
  induction d as [|d IH|d IH|d IH|d IH|d IH|d IH|d IH|d IH|d IH|d IH];
    intros acc cnt;
    [ cbn; rewrite Nat.add_0_r; reflexivity | .. ];
    cbn [NilEmpty.string_of_uint list_ascii_of_string digits_from Pos.of_uint_acc
         Decimal.nb_digits];
    match goal with
    | |- context [is_digit ?c] => change (is_digit c) with true
    end; cbv iota;
    match goal with
    | |- digits_from ?a _ _ = _ =>
        match type of (IH acc cnt) with _ => idtac end
    end.
  all: rewrite Nat.add_succ_r, <- Nat.add_succ_l.
  all: match goal with
       | |- digits_from ?a ?c _ = (Zpos (Pos.of_uint_acc _ ?b), _, _) =>
           replace a with (Zpos b)
             by (match goal with
                 | |- context [digit_val ?c] =>
                     let v := eval vm_compute in (digit_val c) in
                     change (digit_val c) with v
                 end; lia)
       end; apply IH.
Qed.

Lemma digits_from_zero (d : Decimal.uint) (cnt : nat) :
  digits_from 0 cnt (chars d)
  = (Z.of_N (Pos.of_uint d), (cnt + Decimal.nb_digits d)%nat, []).
Proof.
  revert cnt. unfold chars.
  induction d as [|d IH|d IH|d IH|d IH|d IH|d IH|d IH|d IH|d IH|d IH]; intros cnt;
    [ cbn; rewrite Nat.add_0_r; reflexivity | .. ];
    cbn [NilEmpty.string_of_uint list_ascii_of_string digits_from Pos.of_uint
         Decimal.nb_digits];
    match goal with
    | |- context [is_digit ?c] => change (is_digit c) with true
    end; cbv iota;
    match goal with
    | |- context [digit_val ?c] =>
        let v := eval vm_compute in (digit_val c) in
        change (digit_val c) with v
    end;
    rewrite Nat.add_succ_r, <- Nat.add_succ_l.
  - apply IH.
  - apply (digits_from_acc d 1).
  - apply (digits_from_acc d 2).
  - apply (digits_from_acc d 3).
  - apply (digits_from_acc d 4).
  - apply (digits_from_acc d 5).
  - apply (digits_from_acc d 6).
  - apply (digits_from_acc d 7).
  - apply (digits_from_acc d 8).
  - apply (digits_from_acc d 9).
Qed.

Lemma chars_digits (d : Decimal.uint) : Forall (fun c => is_digit c = true) (chars d).
Proof.
  unfold chars. induction d; cbn [NilEmpty.string_of_uint list_ascii_of_string];
    constructor; solve [reflexivity | assumption].
Qed.

Lemma digit_not_space c : is_digit c = true -> is_space c = false.
Proof.
  unfold is_digit, is_space. intros H.
  apply andb_true_iff in H as [H1 H2].
  apply Nat.leb_le in H1, H2.
  apply orb_false_iff. split.
  - apply andb_false_iff. right. apply Nat.leb_gt. lia.
  - apply Nat.eqb_neq. lia.
Qed.

Lemma lstrip_id (l : list ascii) :
  match l with c :: _ => is_space c = false | [] => True end -> lstrip l = l.
Proof. destruct l as [|c l]; [reflexivity|]. cbn. intros ->. reflexivity. Qed.

Lemma strip_id (l : list ascii) :
  Forall (fun c => is_space c = false) l -> strip l = l.
Proof.
  intros H. unfold strip.
  rewrite (lstrip_id l) by (destruct H; auto).
  rewrite lstrip_id, rev_involutive; [reflexivity|].
  apply Forall_rev in H. destruct H; auto.
Qed.

Lemma digits_chars (d : Decimal.uint) :
  d <> Decimal.Nil ->
  exists k, digits (chars d) = (Z.of_N (Pos.of_uint d), S k, []).
Proof.
  intros Hd. unfold digits.
  pose proof (digits_from_zero d 0) as H. pose proof (chars_digits d) as Hc.
  destruct d; try congruence; unfold chars in *;
    cbn [NilEmpty.string_of_uint list_ascii_of_string] in *;
    inversion Hc as [|? ? Hd1 _]; subst; rewrite Hd1, H;
    cbn [Decimal.nb_digits Nat.add]; eexists; reflexivity.
Qed.

Lemma float_of_str_uint (neg : bool) (p : positive) :
  float_of_str (string_of_list_ascii
                  ((if neg then ["-"%char] else []) ++ chars (Pos.to_uint p)))
  = Ok (binary_normalize prec emax (if neg then Zneg p else Zpos p) 0 false).
Proof.
  unfold float_of_str. rewrite list_ascii_of_string_of_list_ascii.
  pose proof (Unsigned.to_uint_nonnil p) as Hnil.
  pose proof (chars_digits (Pos.to_uint p)) as Hc.
  destruct (digits_chars _ Hnil) as [k Hk].
  rewrite Unsigned.of_to in Hk. cbn [Z.of_N] in Hk.
  rewrite strip_id.
  2:{ apply Forall_app. split.
      - destruct neg; repeat constructor.
      - eapply Forall_impl; [exact Hc|]. intros c. apply digit_not_space. }
  assert (Hs : sign ((if neg then ["-"%char] else []) ++ chars (Pos.to_uint p))
               = (neg, chars (Pos.to_uint p))).
  { destruct neg; [reflexivity|]. cbn [app].
    destruct (chars (Pos.to_uint p)) as [|c l] eqn:E; [discriminate Hk|].
    inversion Hc as [|? ? Hd _]; subst. unfold sign.
    destruct (Ascii.eqb c "-") eqn:E1;
      [apply Ascii.eqb_eq in E1; subst; discriminate Hd|].
    destruct (Ascii.eqb c "+") eqn:E2;
      [apply Ascii.eqb_eq in E2; subst; discriminate Hd|]. reflexivity. }
  rewrite Hs.
  assert (Hw : forall w, (w = "inf" \/ w = "infinity" \/ w = "nan") ->
                         is_word w (chars (Pos.to_uint p)) = false).
  { intros w Hw. unfold is_word.
    destruct (chars (Pos.to_uint p)) as [|c l] eqn:E; [discriminate Hk|].
    inversion Hc as [|? ? Hd _]; subst. cbn [map string_of_list_ascii].
    destruct (String.eqb _ w) eqn:Ew; [|reflexivity].
    apply String.eqb_eq in Ew.
    assert (Hl : lower c = c).
    { unfold lower. unfold is_digit in Hd.
      apply andb_true_iff in Hd as [H1 H2]. apply Nat.leb_le in H1, H2.
      destruct (_ && _) eqn:Hup; [|reflexivity].
      apply andb_true_iff in Hup as [H3 H4]. apply Nat.leb_le in H3, H4. lia. }
    rewrite Hl in Ew.
    destruct Hw as [-> | [-> | ->]]; injection Ew as -> _; discriminate Hd. }
  rewrite !Hw by auto. cbn [orb].
  rewrite Hk. cbn [Nat.add exponent].
  change (Z.of_nat 0) with 0. rewrite Z.pow_0_r, Z.mul_1_r, Z.add_0_r, Z.sub_0_r.
  unfold round_dec. cbn [Z.eqb Z.leb Z.compare]. rewrite Z.pow_0_r, Z.mul_1_r.
  destruct neg; reflexivity.
Qed.

Lemma float_of_str_int (n : Z) :
  float_of_str (str_int n) = Ok (binary_normalize prec emax n 0 false).
Proof.
  destruct n as [|p|p].
  - vm_compute. reflexivity.
  - pose proof (float_of_str_uint false p) as H. cbn [app] in H.
    unfold chars in H. rewrite string_of_list_ascii_of_string in H.
    unfold str_int. cbn [Z.to_int NilZero.string_of_int].
    unfold NilZero.string_of_uint.
    pose proof (Unsigned.to_uint_nonnil p).
    destruct (Pos.to_uint p); [congruence | exact H ..].
  - pose proof (float_of_str_uint true p) as H. cbn [app] in H.
    unfold chars in H. cbn [string_of_list_ascii] in H.
    rewrite string_of_list_ascii_of_string in H.
    unfold str_int. cbn [Z.to_int NilZero.string_of_int].
    unfold NilZero.string_of_uint.
    pose proof (Unsigned.to_uint_nonnil p).
    destruct (Pos.to_uint p); [congruence | exact H ..].
Qed.

Lemma float_eq_int (a b : spec_float) :
  float_eq a b = true -> int_of_float a = int_of_float b.
Proof.
  unfold float_eq, SFeqb.
  destruct a as [sa|sa| |sa ma ea], b as [sb|sb| |sb mb eb]; cbn; intros H;
    try discriminate H; try reflexivity;
    try (destruct sa; discriminate H); try (destruct sb; discriminate H).
  destruct sa, sb; try discriminate H;
      (destruct (Z.compare_spec ea eb) as [Heq | |]; try discriminate H; subst eb;
       change (PosDef.Pos.compare_cont Eq ma mb) with (Pos.compare ma mb) in H;
       destruct (Pos.compare_spec ma mb) as [Hm | |]; try discriminate H;
       subst mb; reflexivity).
Qed.

Lemma float_eq_refl (a b : spec_float) : float_eq a b = true -> float_eq a a = true.
Proof.
  unfold float_eq, SFeqb.
  destruct a as [sa|sa| |sa ma ea]; cbn; try reflexivity.
  - destruct sa; reflexivity.
  - destruct b; discriminate.
  - intros _. destruct sa; rewrite Z.compare_refl, Pos.compare_cont_refl; reflexivity.
Qed.

Lemma float_of_int_Ok n x :
  float_of_int n = Ok x -> x = binary_normalize prec emax n 0 false.
Proof.
  unfold float_of_int. destruct (binary_normalize _ _ _ _ _); congruence.
Qed.

(** X15.  When [format_value] takes the integer branch, that is when the
    value read as a float equals the float of its truncation [n], the
    result is [str(n)]; [float] reads this result back as a float equal to
    the one the value was read as, and [format_value] maps the result to
    itself. *)
Theorem format_value_integer (self : EcasoundOutput.t) (v : option string)
    (x back : spec_float) (n : Z) :
  float_of v = Ok x -> int_of_float x = Ok n ->
  float_of_int n = Ok back -> float_eq back x = true ->
  format_value self v = Ok (str_int n) /\
  float_of (Some (str_int n)) = Ok back /\
  format_value self (Some (str_int n)) = Ok (str_int n).
Proof.
  intros Hx Hn Hb He.
  assert (Hread : float_of (Some (str_int n)) = Ok back).
  { cbn [float_of]. rewrite float_of_str_int, (float_of_int_Ok _ _ Hb). reflexivity. }
  split; [|split; [exact Hread|]].
  - unfold format_value. rewrite Hx. cbn [mbind result_bind].
    rewrite Hn. cbn [mbind result_bind]. rewrite Hb. cbn [mbind result_bind].
    rewrite He. reflexivity.
  - unfold format_value. rewrite Hread. cbn [mbind result_bind].
    rewrite (float_eq_int _ _ He), Hn. cbn [mbind result_bind].
    rewrite Hb. cbn [mbind result_bind].
    rewrite (float_eq_refl _ _ He). reflexivity.
Qed.

Lemma digits2_iter (m k : positive) :
  digits2_pos (Pos.iter xO m k) = (digits2_pos m + k)%positive.
Proof.
  induction k as [|k IH] using Pos.peano_ind.
  - cbn. lia.
  - rewrite Pos.iter_succ. cbn [digits2_pos]. rewrite IH. lia.
Qed.

Lemma Zpos_iter (m k : positive) :
  Zpos (Pos.iter xO m k) = Zpos m * 2 ^ Zpos k.
Proof.
  induction k as [|k IH] using Pos.peano_ind.
  - cbn. lia.
  - rewrite Pos.iter_succ, Pos2Z.inj_xO, IH, Pos2Z.inj_succ, Z.pow_succ_r by lia. lia.
Qed.

Lemma digits2_lower (m : positive) : 2 ^ (Zpos (digits2_pos m) - 1) <= Zpos m.
Proof.
  induction m as [m IH|m IH|]; cbn [digits2_pos].
  - rewrite Pos2Z.inj_succ. replace (Z.succ (Zpos (digits2_pos m)) - 1)
      with (Z.succ (Zpos (digits2_pos m) - 1)) by lia.
    rewrite Z.pow_succ_r by lia. lia.
  - rewrite Pos2Z.inj_succ. replace (Z.succ (Zpos (digits2_pos m)) - 1)
      with (Z.succ (Zpos (digits2_pos m) - 1)) by lia.
    rewrite Z.pow_succ_r by lia. lia.
  - cbn. lia.
Qed.

Lemma round_aux_exact (sx : bool) (mz : positive) (ez : Z) :
  Zpos (digits2_pos mz) = 53 -> -1074 <= ez <= 971 ->
  binary_round_aux prec emax sx (Zpos mz) ez loc_Exact = S754_finite sx mz ez.
Proof.
  intros Hd He. unfold binary_round_aux, shr_fexp.
  cbn [shr_record_of_loc Zdigits2].
  assert (H0 : fexp prec emax (Zpos (digits2_pos mz) + ez) - ez = 0).
  { rewrite Hd. unfold fexp, emin, prec, emax. lia. }
  rewrite H0. cbn [shr shr_m loc_of_shr_record round_nearest_even shr_record_of_loc Zdigits2].
  rewrite H0. cbn [shr shr_m].
  replace (ez <=? emax - prec) with true; [reflexivity|].
  symmetry. apply Z.leb_le. unfold emax, prec. lia.
Qed.

Lemma normalize_small (neg : bool) (m : positive) :
  Zpos m < 2 ^ 53 ->
  exists mz ez,
    binary_normalize prec emax (if neg then Zneg m else Zpos m) 0 false
      = S754_finite neg mz ez /\
    -52 <= ez <= 0 /\ Zpos mz = Zpos m * 2 ^ (- ez).
Proof.
  intros Hm.
  assert (HD : Zpos (digits2_pos m) <= 53).
  { pose proof (digits2_lower m) as Hl.
    destruct (Z_le_gt_dec (Zpos (digits2_pos m)) 53) as [H|H]; [exact H|].
    exfalso. assert (2 ^ 53 <= 2 ^ (Zpos (digits2_pos m) - 1))
      by (apply Z.pow_le_mono_r; lia). lia. }
  assert (Hround : binary_normalize prec emax (if neg then Zneg m else Zpos m) 0 false
                   = binary_round prec emax neg m 0) by (destruct neg; reflexivity).
  rewrite Hround. unfold binary_round, shl_align.
  assert (Hf : fexp prec emax (Zpos (digits2_pos m) + 0) - 0
               = Zpos (digits2_pos m) - 53).
  { unfold fexp, emin, prec, emax. lia. }
  assert (Hf' : fexp prec emax (Zpos (digits2_pos m) + 0) = Zpos (digits2_pos m) - 53).
  { unfold fexp, emin, prec, emax. lia. }
  rewrite Hf. destruct (Zpos (digits2_pos m) - 53) as [|k|k] eqn:Hk; [|lia|].
  - exists m, 0. split; [apply round_aux_exact; lia|]. split; [lia|].
    cbn. lia.
  - rewrite Hf'. rewrite ?Hk. exists (Pos.iter xO m k), (Zneg k).
    split; [apply round_aux_exact; [rewrite digits2_iter|]; lia|].
    split; [lia|]. rewrite Zpos_iter. reflexivity.
Qed.

Lemma int_of_normalize_small (n : Z) :
  Z.abs n < 2 ^ 53 ->
  exists x, float_of_int n = Ok x /\ int_of_float x = Ok n /\ float_eq x x = true.
Proof.
  intros Hn. destruct n as [|p|p].
  - exists (S754_zero false). repeat split; vm_compute; reflexivity.
  - destruct (normalize_small false p Hn) as (mz & ez & Hx & He & Hz).
    exists (S754_finite false mz ez). cbv iota in Hx.
    unfold float_of_int. rewrite Hx. repeat split.
    + cbn [int_of_float cond_Zopp]. destruct (0 <=? ez) eqn:E.
      * apply Z.leb_le in E. assert (ez = 0) by lia. subst ez.
        cbn in Hz. rewrite Z.pow_0_r. f_equal. lia.
      * rewrite Hz, Z.div_mul by (apply Z.pow_nonzero; lia). reflexivity.
    + unfold float_eq, SFeqb. cbn.
      rewrite Z.compare_refl, Pos.compare_cont_refl. reflexivity.
  - destruct (normalize_small true p Hn) as (mz & ez & Hx & He & Hz).
    exists (S754_finite true mz ez). cbv iota in Hx.
    unfold float_of_int. rewrite Hx. repeat split.
    + cbn [int_of_float cond_Zopp]. destruct (0 <=? ez) eqn:E.
      * apply Z.leb_le in E. assert (ez = 0) by lia. subst ez.
        cbn in Hz. rewrite Z.pow_0_r. f_equal. lia.
      * rewrite Hz, Z.div_mul by (apply Z.pow_nonzero; lia). reflexivity.
    + unfold float_eq, SFeqb. cbn.
      rewrite Z.compare_refl, Pos.compare_cont_refl. reflexivity.
Qed.

(** X16.  A decimal integer of magnitude below 2 ^ 53, written as [str]
    writes it, is returned unchanged by [format_value]: it is read as a
    float without rounding, and the float is equal to its truncation. *)
Theorem format_value_small_integer (self : EcasoundOutput.t) (n : Z) :
  Z.abs n < 2 ^ 53 ->
  format_value self (Some (str_int n)) = Ok (str_int n).
Proof.
  intros Hn. destruct (int_of_normalize_small n Hn) as (x & Hx & Hi & He).
  unfold format_value. cbn [float_of].
  rewrite float_of_str_int, <- (float_of_int_Ok _ _ Hx).
  cbn [mbind result_bind]. rewrite Hi. cbn [mbind result_bind].
  rewrite Hx. cbn [mbind result_bind]. rewrite He. reflexivity.
Qed.

Lemma format_value_integer_witness :
  format_value (mk false "ecasound" false false [] [] true) (Some "1.0") = Ok "1" /\
  float_of (Some "1") = Ok (S754_finite false 4503599627370496 (-52)) /\
  format_value (mk false "ecasound" false false [] [] true) (Some "1") = Ok "1".
Proof.
  apply (format_value_integer
           (mk false "ecasound" false false [] [] true) (Some "1.0")
           (S754_finite false 4503599627370496 (-52))
           (S754_finite false 4503599627370496 (-52)) 1);
    vm_compute; reflexivity.
Defined.

Lemma format_value_small_integer_witness :
  format_value (mk false "ecasound" false false [] [] true) (Some "-44100")
  = Ok "-44100".
Proof.
  apply (format_value_small_integer
           (mk false "ecasound" false false [] [] true) (-44100)).
  reflexivity.
Defined.

(** ** The exits of the export of a rack *)

Lemma format_track_is_exit self track :
  is_exit (format_track self track) <->
  Exists (fun i => i < 0 \/ Z.of_nat (length (plugins track)) <= i)
         (include_indices self ++ exclude_indices self).
Proof.
  split.
  - intros [msg H].
    apply format_track_exit_first in H as (before & i & after & Hl & _ & Hi & _).
    rewrite Hl. apply Exists_app. right. left. unfold in_range in Hi. lia.
  - intros Hbad. unfold format_track.
    destruct (check_indices_cases
                (include_indices self ++ exclude_indices self)
                (Z.of_nat (length (plugins track)))) as [Hok | [msg Hex]].
    + exfalso. apply check_indices_Ok in Hok. rewrite Forall_forall in Hok.
      apply Exists_exists in Hbad as (i & Hin & Hi).
      specialize (Hok i Hin). unfold in_range in Hok. lia.
    + exists msg. rewrite Hex. reflexivity.
Qed.

(** X17.  The export of a JACK Rack file that parses ends the run in two
    cases only: when an inclusion list and an exclusion list are both
    given, and when a listed index is not an index of the rack's plugins.
    Chain setup and index lists are otherwise accepted, whatever track
    name is given. *)
Theorem run_rack_exit (args : Main.Args) (soup : Bs4.node) (track : Track) :
  find_child "Session" soup = None ->
  is_Some (find_child "jackrack" soup) ->
  JackRack.track soup = Ok track ->
  (is_exit (Main.run args soup) <->
   (Main.include_indices args <> [] /\ Main.exclude_indices args <> []) \/
   Exists (fun i => i < 0 \/ Z.of_nat (length (plugins track)) <= i)
          (Main.include_indices args ++ Main.exclude_indices args)).
Proof.
  intros Hs [rack Hj] Ht. unfold Main.run, Main.sniff. rewrite Hs, Hj.
  cbn [mbind result_bind]. unfold Main.check_args. cbn [negb].
  rewrite !andb_false_r.
  destruct (Main.include_indices args) as [|i li] eqn:Hi;
    destruct (Main.exclude_indices args) as [|x lx] eqn:Hx;
    cbn [Main.nonempty andb mbind result_bind].
  4:{ split; [intros _; left; split; discriminate | intros _; eexists; reflexivity]. }
  all: rewrite Ht; cbn [mbind result_bind];
    rewrite format_track_is_exit; unfold Main.output; cbn [include_indices exclude_indices];
    rewrite Hi, Hx; split; [intros H; right; exact H | intros [[H1 H2] | H]];
    [congruence | exact H].
Qed.

Lemma run_rack_exit_witness :
  is_exit (Main.run (Main.mkArgs "rack" (Some [Some "fx"]) false false (Some "x")
                                 [1] [] false)
                    Examples.rack) <->
  (Main.include_indices
     (Main.mkArgs "rack" (Some [Some "fx"]) false false (Some "x") [1] [] false) <> []
   /\ Main.exclude_indices
        (Main.mkArgs "rack" (Some [Some "fx"]) false false (Some "x") [1] [] false)
      <> []) \/
  Exists (fun i => i < 0 \/ 1 <= i)
         (Main.include_indices
            (Main.mkArgs "rack" (Some [Some "fx"]) false false (Some "x") [1] [] false)
          ++ Main.exclude_indices
               (Main.mkArgs "rack" (Some [Some "fx"]) false false (Some "x")
                            [1] [] false)).
Proof.
  apply (run_rack_exit
           (Main.mkArgs "rack" (Some [Some "fx"]) false false (Some "x") [1] [] false)
           Examples.rack
           (mkTrack [LadspaPlugin 3 [Some "0.2"; Some "0.8"] true None] 2 44100 None)).
  - vm_compute; reflexivity.
  - eexists. vm_compute. reflexivity.
  - vm_compute; reflexivity.
Defined.

(** ** Documents with missing parts *)

(** X18.  What the route parsers raise for a route without the element
    that the channel count is read from, whatever else the document
    holds: the Ardour 2 parser raises [AttributeError] for a route without
    an [IO] element and [KeyError] for the key [inputs] when the [IO]
    element has neither an [input-connection] nor an [inputs] attribute;
    the Ardour 3 parser raises [AttributeError] for a route without an [IO]
    element of direction [Input]. *)
Theorem parse_route_missing_io (soup route : Bs4.node) :
  (find "IO" route = None ->
   Ardour2Session.parse_route soup route = Raise AttributeError) /\
  (forall io, find "IO" route = Some io ->
     attrs_of io !! "input-connection" = None ->
     attrs_of io !! "inputs" = None ->
     Ardour2Session.parse_route soup route = Raise (KeyError "inputs")) /\
  (find_with "IO" "direction" "Input" route = None ->
   Ardour3Session.parse_route soup route = Raise AttributeError).
Proof.
  split; [|split].
  - intros H. unfold Ardour2Session.parse_route. rewrite H. reflexivity.
  - intros io H Hc Hi. unfold Ardour2Session.parse_route. rewrite H.
    cbn [attr_of mbind result_bind]. unfold has_attr. rewrite Hc.
    rewrite bool_decide_eq_false_2 by (intros [? ?]; discriminate).
    unfold get. rewrite Hi. reflexivity.
  - intros H. unfold Ardour3Session.parse_route. rewrite H. reflexivity.
Qed.

Lemma parse_route_missing_io_witness :
  Ardour2Session.parse_route Examples.session (Examples.elem "Route" [] [])
    = Raise AttributeError /\
  Ardour2Session.parse_route Examples.session
    (Examples.elem "Route" [] [Examples.elem "IO" [("name", "Bus")] []])
    = Raise (KeyError "inputs") /\
  Ardour3Session.parse_route Examples.session3
    (Examples.elem "Route" []
       [Examples.elem "IO" [("name", "Bus"); ("direction", "Output")] []])
    = Raise AttributeError.
Proof.
  split; [|split].
  - apply (proj1 (parse_route_missing_io Examples.session
                    (Examples.elem "Route" [] []))).
    vm_compute; reflexivity.
  - apply (proj1 (proj2 (parse_route_missing_io Examples.session
                    (Examples.elem "Route" []
                       [Examples.elem "IO" [("name", "Bus")] []])))
             (Examples.elem "IO" [("name", "Bus")] []));
      vm_compute; reflexivity.
  - apply (proj2 (proj2 (parse_route_missing_io Examples.session3
                    (Examples.elem "Route" []
                       [Examples.elem "IO" [("name", "Bus"); ("direction", "Output")]
                          []])))).
    vm_compute; reflexivity.
Defined.

(** ** Values that are missing *)

Lemma mapM_first_Raise {A B} (f : A -> result B) (before : list A) (x : A)
    (after : list A) (e : exn) :
  Forall (fun y => is_Ok (f y)) before -> f x = Raise e ->
  mapM f (before ++ x :: after) = Raise e.
Proof.
  intros Hb Hx. induction Hb as [|y before [b Hy] _ IH]; cbn [app];
    rewrite mapM_cons.
  - rewrite Hx. reflexivity.
  - rewrite Hy, IH. reflexivity.
Qed.

(** X19.  The values of a JACK Rack plugin are the texts of the [value]
    elements of its control rows, in document order, and a [value]
    element without contents gives the value [None]: the plugin is
    returned all the same.  Formatting a plugin raises [TypeError] at its
    first value that is [None], once the values before it have been
    formatted. *)
Theorem format_plugin_missing_value :
  (forall xml plugin,
     JackRack.parse_ladspa xml = Ok plugin ->
     Forall2 (fun cr v => exists val, find "value" cr = Some val /\ v = get_string val)
             (find_all "controlrow" xml) (values plugin)) /\
  (forall nm attrs, get_string (Tag nm attrs []) = None) /\
  (forall self index plugin before after,
     values plugin = (before ++ None :: after)%list ->
     Forall (fun v => is_Ok (format_value self v)) before ->
     format_plugin self index plugin = Raise TypeError).
Proof.
  split; [|split; [reflexivity|]].
  - intros xml plugin H. unfold JackRack.parse_ladspa in H.
    apply bind_Ok in H as (en & _ & H).
    apply bind_Ok in H as (id & _ & H).
    apply bind_Ok in H as (uid & _ & H).
    apply bind_Ok in H as (vs & Hvs & H).
    injection H as <-. cbn [values]. apply mapM_Ok in Hvs.
    eapply Forall2_impl; [exact Hvs|]. intros cr v Hv. cbv beta in Hv.
    apply fmap_Ok in Hv as (val & Hval & ->).
    destruct (find "value" cr) as [val'|]; [|discriminate].
    injection Hval as ->. exists val. split; reflexivity.
  - intros self index plugin before after Hv Hb. unfold format_plugin.
    assert (H : format_cmdline plugin (format_value self) = Raise TypeError).
    { destruct plugin; cbn [values] in Hv; subst; cbn [format_cmdline];
        rewrite (mapM_first_Raise (format_value self) before None after TypeError
                   Hb eq_refl); reflexivity. }
    rewrite H. reflexivity.
Qed.

Lemma format_plugin_missing_value_witness :
  Forall2 (fun cr v => exists val, find "value" cr = Some val /\ v = get_string val)
          (find_all "controlrow" Examples.hollow)
          (values (LadspaPlugin 4 [Some "0.5"; None] true None)) /\
  format_plugin (mk false "ecasound" false false [] [] true) 0
                (LadspaPlugin 4 [Some "0.5"; None] true None)
  = Raise TypeError.
Proof.
  split.
  - apply (proj1 format_plugin_missing_value Examples.hollow
             (LadspaPlugin 4 [Some "0.5"; None] true None)).
    vm_compute; reflexivity.
  - apply (proj2 (proj2 format_plugin_missing_value)
             (mk false "ecasound" false false [] [] true) 0
             (LadspaPlugin 4 [Some "0.5"; None] true None) [Some "0.5"] []).
    + reflexivity.
    + repeat constructor. eexists. vm_compute. reflexivity.
Defined.
